(** * Access-gated image generation bot (Index.js): model and properties

    The bot keeps two JSON documents on disk (the user registry and the
    usage ledger) and an in-memory session map.  Every handler of
    Index.js is written here as a function from the stores and the
    inputs the handler reads (the update, the clock, the answers of the
    generation backend) to the new stores and the list of outputs the
    handler produces, in the order it produces them.

    Strings are byte strings holding the UTF-8 form of the JavaScript
    strings; the separators the code splits on are ASCII, so splitting
    the bytes and splitting the JavaScript string agree. *)

From stdpp Require Import gmap strings list fin_maps pretty.
From Stdlib Require Import Ascii QArith.

Local Open Scope Z_scope.

(** ** JavaScript values and string primitives used by Index.js *)

Module JS.

(** A value used as a chat id: [ctx.chat.id] and [ctx.from.id] are
    numbers, [data.split("_")[1]] is a string or [undefined]. *)
Inductive id :=
| IdNum (n : Z)
| IdStr (s : string)
| IdUndef.

(** [String(v)] *)
Definition String_ (v : id) : string :=
  match v with
  | IdNum n => pretty n
  | IdStr s => s
  | IdUndef => "undefined"
  end.

(** Truthiness of a string, and of a string that may be [undefined]
    or [null]. *)
Definition truthy (s : string) : bool := negb (String.eqb s "").

Definition truthy_opt (o : option string) : bool :=
  match o with
  | Some s => truthy s
  | None => false
  end.

(** [a || b] where [b] is a string *)
Definition or_str (a : option string) (b : string) : string :=
  match a with
  | Some s => if truthy s then s else b
  | None => b
  end.

(** [a || null] *)
Definition or_null (a : string) : option string :=
  if truthy a then Some a else None.

(** [s.startsWith(p)] *)
Fixpoint startsWith (p s : string) : bool :=
  match p, s with
  | EmptyString, _ => true
  | String a p', String b s' => if Ascii.eqb a b then startsWith p' s' else false
  | String _ _, EmptyString => false
  end.

(** [s.split(sep)] for a one-character separator *)
Fixpoint split (sep : ascii) (s : string) : list string :=
  match s with
  | EmptyString => [EmptyString]
  | String c r =>
      if Ascii.eqb c sep then EmptyString :: split sep r
      else match split sep r with
           | x :: xs => String c x :: xs
           | [] => [String c EmptyString]
           end
  end.

(** [l.join(sep)] *)
Fixpoint join (sep : string) (l : list string) : string :=
  match l with
  | [] => EmptyString
  | [x] => x
  | x :: r => x +:+ sep +:+ join sep r
  end.

(** [l.slice(1)] *)
Definition slice1 (l : list string) : list string := drop 1 l.

(** [l[i]] *)
Definition index (l : list string) (i : nat) : id :=
  match l !! i with
  | Some s => IdStr s
  | None => IdUndef
  end.

Definition bytes (l : list nat) : string :=
  String.string_of_list_ascii (map ascii_of_nat l).

(** The UTF-8 forms of the code points [trim] removes (WhiteSpace and
    LineTerminator of ECMAScript). *)
Definition whitespace : list string :=
  map bytes
    [ [9]; [10]; [11]; [12]; [13]; [32]; [194; 160]; [225; 154; 128];
      [226; 128; 128]; [226; 128; 129]; [226; 128; 130]; [226; 128; 131];
      [226; 128; 132]; [226; 128; 133]; [226; 128; 134]; [226; 128; 135];
      [226; 128; 136]; [226; 128; 137]; [226; 128; 138]; [226; 128; 168];
      [226; 128; 169]; [226; 128; 175]; [226; 129; 159]; [227; 128; 128];
      [239; 187; 191] ]%nat.

Fixpoint strip (p s : string) : option string :=
  match p, s with
  | EmptyString, _ => Some s
  | String a p', String b s' => if Ascii.eqb a b then strip p' s' else None
  | String _ _, EmptyString => None
  end.

Fixpoint strip_any (ps : list string) (s : string) : option string :=
  match ps with
  | [] => None
  | p :: ps' =>
      match strip p s with
      | Some r => Some r
      | None => strip_any ps' s
      end
  end.

Fixpoint trim_front (ws : list string) (fuel : nat) (s : string) : string :=
  match fuel with
  | O => s
  | S fuel' =>
      match strip_any ws s with
      | Some r => trim_front ws fuel' r
      | None => s
      end
  end.

Definition trimStart (s : string) : string :=
  trim_front whitespace (String.length s) s.

Definition trimEnd (s : string) : string :=
  String.rev (trim_front (map String.rev whitespace) (String.length s) (String.rev s)).

(** [s.trim()] *)
Definition trim (s : string) : string := trimEnd (trimStart s).

(** [s.padStart(n, c)] for a one-character filler *)
Definition padStart (n : nat) (c : ascii) (s : string) : string :=
  String.string_of_list_ascii (replicate (n - String.length s) c) +:+ s.

(** [s.replace(c, "")] for a one-character pattern: the first
    occurrence is removed. *)
Fixpoint remove_first (c : ascii) (s : string) : string :=
  match s with
  | EmptyString => EmptyString
  | String b r => if Ascii.eqb b c then r else String b (remove_first c r)
  end.

(** *** JSON values, as returned by [res.json()] *)
#[local] Unset Elimination Schemes.
Inductive json :=
| JNull
| JBool (b : bool)
| JNum (q : Q)
| JStr (s : string)
| JArr (items : list json)
| JObj (fields : list (string * json)).
#[local] Set Elimination Schemes.

(** A JavaScript value read out of a response: a JSON value or
    [undefined]. *)
Definition value := option json.

Definition truthy_json (v : json) : bool :=
  match v with
  | JNull => false
  | JBool b => b
  | JNum q => negb (Qeq_bool q 0)
  | JStr s => truthy s
  | JArr _ => true
  | JObj _ => true
  end.

Definition truthy_value (v : value) : bool :=
  match v with
  | Some j => truthy_json j
  | None => false
  end.

(** Own property of a parsed object; [JSON.parse] keeps the last of
    several equal keys. *)
Fixpoint field (k : string) (fs : list (string * json)) : value :=
  match fs with
  | [] => None
  | (k', v) :: r =>
      match field k r with
      | Some w => Some w
      | None => if String.eqb k k' then Some v else None
      end
  end.

(** [v?.k] for a property name [k] that no prototype defines (here
    [data], [image_url], [url], [output]). *)
Definition get (v : value) (k : string) : value :=
  match v with
  | Some (JObj fs) => field k fs
  | _ => None
  end.

(** [v?.[0]] *)
Definition get0 (v : value) : value :=
  match v with
  | Some (JArr items) => head items
  | Some (JObj fs) => field "0" fs
  | Some (JStr (String c _)) => Some (JStr (String c EmptyString))
  | _ => None
  end.

(** [a || b] on values *)
Definition or_value (a b : value) : value :=
  if truthy_value a then a else b.

End JS.


(** ** Data model *)

(** The three values the code stores in [status]. *)
Inductive user_status := pending | approved | denied.

Global Instance user_status_eq_dec : EqDecision user_status.
Proof. solve_decision. Defined.

(** A value of users.json: [{ status, username, requestedAt }].
    [username] is [null] (or missing) when [None]. *)
Record user_record := {
  status : user_status;
  username : option string;
  requestedAt : option string
}.

(** A value of the [sessions] map. *)
Record session := {
  modelName : option string;
  baseImages : list string;
  refImages : list string;
  instagramHandles : list string
}.

(** [{ baseImages: [], refImages: [], instagramHandles: [] }] *)
Definition empty_session : session :=
  {| modelName := None; baseImages := []; refImages := []; instagramHandles := [] |}.

(** What the code reads from one [new Date()]. *)
Record Date := {
  getUTCFullYear : Z;
  getUTCMonth : Z;
  getUTCDate : Z;
  toISOString : string
}.

(** users.json, usage.json (day, then chat id) and the [sessions] map.
    The two documents are maps over their own keys.  The keys the
    handlers use are decimal chat ids, days and, for an admin press,
    the text after the underscore of the button data; none of the
    buttons the bot makes carries a name that [Object.prototype]
    defines, so a property read is a lookup of an own key. *)
Record store := {
  users : gmap string user_record;
  usage : gmap string (gmap string Z);
  sessions : gmap Z session
}.

Definition empty_store : store :=
  {| users := ∅; usage := ∅; sessions := ∅ |}.

Definition writeUsers (obj : gmap string user_record) (st : store) : store :=
  {| users := obj; usage := usage st; sessions := sessions st |}.

Definition writeUsage (obj : gmap string (gmap string Z)) (st : store) : store :=
  {| users := users st; usage := obj; sessions := sessions st |}.

Definition set_sessions (m : gmap Z session) (st : store) : store :=
  {| users := users st; usage := usage st; sessions := m |}.

Definition todayStr (d : Date) : string :=
  pretty (getUTCFullYear d) +:+ "-" +:+
  JS.padStart 2 "0" (pretty (getUTCMonth d + 1)) +:+ "-" +:+
  JS.padStart 2 "0" (pretty (getUTCDate d)).

(** ** User management *)

Definition getUserStatus (chatId : JS.id) (st : store) : option user_status :=
  match users st !! JS.String_ chatId with
  | Some r => Some (status r)
  | None => None
  end.

Definition ensureUserPending (chatId : JS.id) (name : string) (now : Date)
    (st : store) : bool * store :=
  match users st !! JS.String_ chatId with
  | None =>
      (true,
       writeUsers
         (<[JS.String_ chatId :=
              {| status := pending;
                 username := JS.or_null name;
                 requestedAt := Some (toISOString now) |}]> (users st)) st)
  | Some _ => (false, st)
  end.

Definition setUserStatus (chatId : JS.id) (s : user_status) (now : Date)
    (st : store) : store :=
  let old := users st !! JS.String_ chatId in
  let req := old ≫= requestedAt in
  writeUsers
    (<[JS.String_ chatId :=
         {| status := s;
            username := old ≫= username;
            requestedAt :=
              if JS.truthy_opt req then req else Some (toISOString now) |}]>
       (users st)) st.

(** ** Usage tracking *)

Definition getUsageCount (chatId : JS.id) (now : Date) (st : store) : Z :=
  match usage st !! todayStr now with
  | None => 0
  | Some day => default 0 (day !! JS.String_ chatId)
  end.

Definition addUsage (chatId : JS.id) (add : Z) (now : Date) (st : store) : store :=
  let today := todayStr now in
  let day := default ∅ (usage st !! today) in
  writeUsage
    (<[today :=
         <[JS.String_ chatId := default 0 (day !! JS.String_ chatId) + add]> day]>
       (usage st)) st.

(** ** Outputs of a handler

    What a handler sends, in the order it sends it.  Whether the
    transport delivers a message is outside the model. *)

Inductive output :=
| Reply (text : string)
| ReplyKeyboard (text : string) (buttons : list (string * string))
| SendMessage (chat : JS.id) (text : string) (buttons : list (string * string))
| SendPhoto (chat : JS.id) (url : JS.json) (caption : string)
| AnswerCbQuery (text : option string)
| EditMessageText (text : string)
| WavespeedEdit (baseImage : option string) (refImage : string)
    (prompt : string) (seed : Z)
| FetchInstagram (name : string) (limit : nat)
| GetFile (fileId : string)
| ConsoleWarn (text : string)
| ConsoleError (text : string).

(** What awaiting a collaborator gives back: a value or an exception. *)
Inductive outcome (A : Type) :=
| Returns (a : A)
| Throws (message : string).
Arguments Returns {A} a.
Arguments Throws {A} message.

(** The generation backend during one batch: the seed drawn before the
    [n]-th call, [Math.floor(Math.random() * 100000)], and what that
    call gives back. *)
Record backend := {
  seed_of : nat → Z;
  answer_of : nat → outcome JS.json
}.

(** [ctx.from] *)
Record sender := {
  from_id : Z;
  from_username : option string;
  first_name : option string;
  last_name : option string
}.

(** [`${v}`] for a string that may be [undefined] *)
Definition show (v : option string) : string :=
  match v with
  | Some s => s
  | None => "undefined"
  end.

Definition status_name (s : user_status) : string :=
  match s with
  | pending => "pending"
  | approved => "approved"
  | denied => "denied"
  end.

(** [status !== "approved"] *)
Definition not_approved (s : option user_status) : bool :=
  match s with
  | Some approved => false
  | _ => true
  end.

(** [wres?.data?.image_url || wres?.data?.[0]?.url || wres?.output?.[0]?.url || null] *)
Definition find_url (wres : JS.json) : JS.json :=
  let w := Some wres in
  let u :=
    JS.or_value
      (JS.or_value
         (JS.or_value (JS.get (JS.get w "data") "image_url")
            (JS.get (JS.get0 (JS.get w "data")) "url"))
         (JS.get (JS.get0 (JS.get w "output")) "url"))
      (Some JS.JNull) in
  default JS.JNull u.

Definition variationsPerRef : nat := 2.

Definition msg_not_approved : string := "🔒 Not approved.".
Definition msg_no_model : string :=
  "Set model name first with /model <Name> and upload base images.".
Definition msg_no_base : string := "Upload at least one base image (model).".
Definition msg_no_ref : string :=
  "Upload at least one reference image (style/pose) or use /fetch_instagram.".
Definition msg_no_image : string :=
  "⚠️ Generation returned no image for one variation.".
Definition msg_gen_error : string :=
  "⚠️ Error during generation. Try again later.".
Definition msg_model_usage : string := "Usage: /model <Model Name>".
Definition msg_model_locked : string :=
  "🔒 You are not approved yet. Tap Request Access first.".

Definition msg_limit (usedToday limit : Z) (totalImages : nat) : string :=
  "⚠️ Daily limit exceeded. You have used " +:+ pretty usedToday +:+ "/" +:+
  pretty limit +:+ " images today. This request would generate " +:+
  pretty totalImages +:+ ".".

Definition msg_generating (totalImages : nat) : string :=
  "Generating " +:+ pretty totalImages +:+ " images (may take ~20-60s)...".

Definition msg_done (produced : nat) : string :=
  "✅ Done — " +:+ pretty produced +:+ " images generated. Today's usage updated.".

Definition caption (k totalImages : nat) : string :=
  "Result " +:+ pretty k +:+ "/" +:+ pretty totalImages.

Definition prompt_for (s : session) : string :=
  "A realistic portrait of " +:+ show (modelName s) +:+
  ", matching the pose/outfit of the reference, ultra realistic, cinematic lighting, consistent face, photo quality.".

Section Bot.

(** Process configuration, read once at start-up. *)
Variable TELEGRAM_TOKEN : string.
Variable WAVESPEED_KEY : option string.
Variable ADMIN_ID : string.
Variable DAILY_LIMIT : Z.

(** [callWavespeedEdit]: without a key it throws before the request
    leaves; otherwise the result is the backend's. *)
Definition callWavespeedEdit (answer : outcome JS.json) : outcome JS.json :=
  if negb (JS.truthy_opt WAVESPEED_KEY) then Throws "Wavespeed key not configured"
  else answer.

(** State of the generation loop: calls made so far, [generatedUrls],
    and what was sent so far. *)
Record loop_state := {
  calls : nat;
  generatedUrls : list JS.json;
  sent : list output
}.

(** Body of the inner loop of [/generate]: one variation of [ref]. *)
Definition variation (chatId : Z) (s : session) (totalImages : nat)
    (env : backend) (ref : string) (acc : loop_state) : loop_state :=
  let n := calls acc in
  let call := WavespeedEdit (baseImages s !! 0%nat) ref (prompt_for s) (seed_of env n) in
  match callWavespeedEdit (answer_of env n) with
  | Returns wres =>
      let url := find_url wres in
      if JS.truthy_json url then
        let urls := generatedUrls acc ++ [url] in
        {| calls := S n;
           generatedUrls := urls;
           sent := sent acc ++
                   [call; SendPhoto (JS.IdNum chatId) url (caption (length urls) totalImages)] |}
      else
        {| calls := S n;
           generatedUrls := generatedUrls acc;
           sent := sent acc ++
                   [call; ConsoleWarn "No url in wavespeed response"; Reply msg_no_image] |}
  | Throws _ =>
      {| calls := S n;
         generatedUrls := generatedUrls acc;
         sent := sent acc ++ [call; ConsoleError "Generation error"; Reply msg_gen_error] |}
  end.

(** [for (let v = 0; v < variationsPerRef; v++) ...] *)
Definition variations (chatId : Z) (s : session) (totalImages : nat)
    (env : backend) (acc : loop_state) (ref : string) : loop_state :=
  foldl (λ a _, variation chatId s totalImages env ref a) acc (seq 0 variationsPerRef).

(** [for (let i = 0; i < refs.length; i++) ...] *)
Definition generation_loop (chatId : Z) (s : session) (totalImages : nat)
    (env : backend) (refs : list string) : loop_state :=
  foldl (variations chatId s totalImages env)
    {| calls := 0; generatedUrls := []; sent := [] |} refs.

(** The plan of [/generate]: [s.refImages.slice(0, 3)] and
    [refs.length * variationsPerRef]. *)
Definition plan_refs (s : session) : list string := take 3 (refImages s).

Definition plan_total (s : session) : nat :=
  (length (plan_refs s) * variationsPerRef)%nat.

(** [bot.command("generate")].  [clock] is the date seen by
    [getUsageCount], [clock'] the date seen by [addUsage] after the
    loop. *)
Definition generate (chatId : Z) (clock clock' : Date) (env : backend)
    (st : store) : store * list output :=
  if not_approved (getUserStatus (JS.IdNum chatId) st) then
    (st, [Reply msg_not_approved])
  else
    match sessions st !! chatId with
    | None => (st, [Reply msg_no_model])
    | Some s =>
        if negb (JS.truthy_opt (modelName s)) then (st, [Reply msg_no_model])
        else if (length (baseImages s) <? 1)%nat then (st, [Reply msg_no_base])
        else if (length (refImages s) <? 1)%nat then (st, [Reply msg_no_ref])
        else
          let refs := plan_refs s in
          let totalImages := plan_total s in
          let usedToday := getUsageCount (JS.IdNum chatId) clock st in
          if usedToday + Z.of_nat totalImages >? DAILY_LIMIT then
            (st, [Reply (msg_limit usedToday DAILY_LIMIT totalImages)])
          else
            let fin := generation_loop chatId s totalImages env refs in
            let st1 := addUsage (JS.IdNum chatId) (Z.of_nat totalImages) clock' st in
            let st2 := set_sessions (delete chatId (sessions st1)) st1 in
            (st2,
             [Reply (msg_generating totalImages)] ++ sent fin ++
             [Reply (msg_done (length (generatedUrls fin)))])
    end.

(** [bot.command("model")] *)
Definition model_argument (text : string) : string :=
  JS.trim (JS.join " " (JS.slice1 (JS.split " " text))).

Definition msg_model_set (name : string) : string :=
  "Model name set to: " +:+ name +:+
  ". Now send base images (1-5), then reference images (1-3) or use /fetch_instagram <username>.".

Definition model (chatId : Z) (text : string) (st : store) : store * list output :=
  let name := model_argument text in
  if negb (JS.truthy name) then (st, [Reply msg_model_usage])
  else if not_approved (getUserStatus (JS.IdNum chatId) st) then
    (st, [Reply msg_model_locked])
  else
    let s := default empty_session (sessions st !! chatId) in
    let s' := {| modelName := Some name;
                 baseImages := baseImages s;
                 refImages := refImages s;
                 instagramHandles := instagramHandles s |} in
    (set_sessions (<[chatId := s']> (sessions st)) st, [Reply (msg_model_set name)]).

(** [bot.start] *)
Definition start (chatId : Z) (st : store) : store * list output :=
  (st,
   [ReplyKeyboard
      "🔒 This bot is private. Tap Request Access to ask the admin for permission."
      [("Request Access", "request_" +:+ pretty chatId)]]).

(** [bot.command("status")] *)
Definition status_cmd (chatId : Z) (clock : Date) (st : store) : store * list output :=
  let name :=
    match users st !! JS.String_ (JS.IdNum chatId) with
    | Some r => status_name (status r)
    | None => "none"
    end in
  let usageCount := getUsageCount (JS.IdNum chatId) clock st in
  (st,
   [Reply ("Status: " +:+ name +:+ JS.bytes [10%nat] +:+ "Today usage: " +:+
           pretty usageCount +:+ "/" +:+ pretty DAILY_LIMIT)]).

(** [bot.command("fetch_instagram")]; [fetched] is what
    [fetchInstagram(username, 6)] gives back. *)
Definition fetch_instagram (chatId : Z) (text : string)
    (fetched : outcome (list string)) (st : store) : store * list output :=
  if not_approved (getUserStatus (JS.IdNum chatId) st) then
    (st, [Reply msg_not_approved])
  else
    let parts := JS.slice1 (JS.split " " text) in
    if negb (JS.truthy_opt (parts !! 0%nat)) then
      (st, [Reply "Usage: /fetch_instagram <username>"])
    else
      let name := JS.remove_first "@" (show (parts !! 0%nat)) in
      let pre := [Reply ("Fetching recent images for @" +:+ name +:+ "...");
                  FetchInstagram name 6] in
      match fetched with
      | Returns imgs =>
          if (length imgs =? 0)%nat then (st, pre ++ [Reply "No images found."])
          else
            let s := default empty_session (sessions st !! chatId) in
            let s' := {| modelName := modelName s;
                         baseImages := baseImages s;
                         refImages := refImages s ++ imgs;
                         instagramHandles := instagramHandles s |} in
            (set_sessions (<[chatId := s']> (sessions st)) st,
             pre ++ [Reply ("Added " +:+ pretty (length imgs) +:+
                            " reference images from @" +:+ name +:+
                            ". Send /generate when ready.")])
      | Throws m =>
          (st, pre ++ [ConsoleError "fetch_instagram error";
                       Reply ("Failed to fetch Instagram images: " +:+ m)])
      end.

(** [bot.on('callback_query')] *)
Definition is_admin (from : sender) : bool :=
  String.eqb (JS.String_ (JS.IdNum (from_id from))) (JS.String_ (JS.IdStr ADMIN_ID)).

Definition callback_query (data : option string) (from : sender) (now : Date)
    (st : store) : store * list output :=
  match data with
  | None => (st, [AnswerCbQuery None])
  | Some d =>
      if JS.truthy d && JS.startsWith "request_" d then
        let requesterChatId := JS.IdNum (from_id from) in
        let requesterUsername :=
          JS.or_str (from_username from)
            (JS.or_str (first_name from) "" +:+ " " +:+ JS.or_str (last_name from) "") in
        let st' := snd (ensureUserPending requesterChatId requesterUsername now st) in
        (st',
         [AnswerCbQuery (Some "Access request sent to admin.");
          Reply "✅ Request sent. You'll be notified when approved.";
          SendMessage (JS.IdStr ADMIN_ID)
            ("🆕 Access Request" +:+ JS.bytes [10%nat] +:+ "User: @" +:+
             requesterUsername +:+ JS.bytes [10%nat] +:+ "Chat ID: " +:+
             JS.String_ requesterChatId)
            [("✅ Approve", "approve_" +:+ JS.String_ requesterChatId);
             ("🚫 Deny", "deny_" +:+ JS.String_ requesterChatId)]])
      else if JS.truthy d && JS.startsWith "approve_" d && is_admin from then
        let cid := JS.index (JS.split "_" d) 1 in
        (setUserStatus cid approved now st,
         [AnswerCbQuery (Some "User approved.");
          SendMessage cid
            "✅ You have been approved! You can now use /model and /generate." [];
          EditMessageText ("Approved user " +:+ JS.String_ cid)])
      else if JS.truthy d && JS.startsWith "deny_" d && is_admin from then
        let cid := JS.index (JS.split "_" d) 1 in
        (setUserStatus cid denied now st,
         [AnswerCbQuery (Some "User denied.");
          SendMessage cid "🚫 Your access request was denied by the admin." [];
          EditMessageText ("Denied user " +:+ JS.String_ cid)])
      else (st, [AnswerCbQuery None])
  end.

(** The heuristic of the photo handler: [true] when the photo is a
    base image. *)
Definition is_base (s : session) : bool :=
  negb (JS.truthy_opt (modelName s)) || (length (baseImages s) <? 2)%nat.

(** [bot.on("message")].  [photo] lists the [file_id]s of
    [ctx.message.photo] ([None] when the message has no photo); [file]
    is what [getFile] gives back, as its [file_path]. *)
Definition message (chatId : Z) (from : sender) (photo : option (list string))
    (file : outcome (option string)) (now : Date) (st : store) : store * list output :=
  match photo with
  | None => (st, [])
  | Some sizes =>
      if (length sizes =? 0)%nat then (st, [])
      else if not_approved (getUserStatus (JS.IdNum chatId) st) then
        (snd (ensureUserPending (JS.IdNum chatId)
                (JS.or_str (from_username from) (JS.or_str (first_name from) "")) now st),
         [Reply "🔒 You're not approved yet. Tap Request Access or wait for admin approval."])
      else
        let fileId := show (last sizes) in
        match file with
        | Throws _ => (st, [GetFile fileId; ConsoleError "photo handler err"])
        | Returns file_path =>
            let fileUrl := "https://api.telegram.org/file/bot" +:+ TELEGRAM_TOKEN +:+
                           "/" +:+ show file_path in
            let s := default empty_session (sessions st !! chatId) in
            if is_base s then
              let s' := {| modelName := modelName s;
                           baseImages := baseImages s ++ [fileUrl];
                           refImages := refImages s;
                           instagramHandles := instagramHandles s |} in
              (set_sessions (<[chatId := s']> (sessions st)) st,
               [GetFile fileId;
                Reply ("✅ Base image added (total base images: " +:+
                       pretty (length (baseImages s')) +:+ ").")])
            else
              let s' := {| modelName := modelName s;
                           baseImages := baseImages s;
                           refImages := refImages s ++ [fileUrl];
                           instagramHandles := instagramHandles s |} in
              (set_sessions (<[chatId := s']> (sessions st)) st,
               [GetFile fileId;
                Reply ("✅ Reference image added (total refs: " +:+
                       pretty (length (refImages s')) +:+
                       "). Send /generate when ready.")])
        end
  end.

(** ** Updates and runs *)

(** An update together with what its handler reads from outside
    while it runs. *)
Inductive event :=
| OnStart (chatId : Z)
| OnCallbackQuery (data : option string) (from : sender) (now : Date)
| OnModel (chatId : Z) (text : string)
| OnStatus (chatId : Z) (clock : Date)
| OnFetchInstagram (chatId : Z) (text : string) (fetched : outcome (list string))
| OnGenerate (chatId : Z) (clock clock' : Date) (env : backend)
| OnMessage (chatId : Z) (from : sender) (photo : option (list string))
    (file : outcome (option string)) (now : Date).

Definition handle (e : event) (st : store) : store * list output :=
  match e with
  | OnStart chatId => start chatId st
  | OnCallbackQuery data from now => callback_query data from now st
  | OnModel chatId text => model chatId text st
  | OnStatus chatId clock => status_cmd chatId clock st
  | OnFetchInstagram chatId text fetched => fetch_instagram chatId text fetched st
  | OnGenerate chatId clock clock' env => generate chatId clock clock' env st
  | OnMessage chatId from photo file now => message chatId from photo file now st
  end.

(** Updates handled one after the other, each to completion. *)
Definition run (evs : list event) (st : store) : store :=
  foldl (λ s e, fst (handle e s)) st evs.





(** ** Reading the generation loop call by call

    The definitions below describe a batch one call at a time; the
    loop is proved equal to them. *)

(** The calls of a batch in the order the loop makes them. *)
Definition jobs (refs : list string) : list string :=
  refs ≫= λ r, replicate variationsPerRef r.

(** The image the [n]-th call yields, if it yields one. *)
Definition delivered (env : backend) (n : nat) : option JS.json :=
  match callWavespeedEdit (answer_of env n) with
  | Returns wres =>
      if JS.truthy_json (find_url wres) then Some (find_url wres) else None
  | Throws _ => None
  end.

(** The images yielded by the first [n] calls. *)
Definition produced (env : backend) (n : nat) : list JS.json :=
  omap (delivered env) (seq 0 n).

(** The request of the [k]-th call. *)
Definition request (s : session) (env : backend) (k : nat) (ref : string) : output :=
  WavespeedEdit (baseImages s !! 0%nat) ref (prompt_for s) (seed_of env k).

(** What follows the request of the [k]-th call; [tag] is the number
    shown in the caption of a delivered image. *)
Definition response (chatId : Z) (totalImages : nat) (env : backend)
    (tag : nat) (k : nat) : list output :=
  match callWavespeedEdit (answer_of env k) with
  | Returns wres =>
      if JS.truthy_json (find_url wres) then
        [SendPhoto (JS.IdNum chatId) (find_url wres) (caption tag totalImages)]
      else [ConsoleWarn "No url in wavespeed response"; Reply msg_no_image]
  | Throws _ => [ConsoleError "Generation error"; Reply msg_gen_error]
  end.

(** The [k]-th call, tagged with the number of images delivered up to
    and including it. *)
Definition item (chatId : Z) (s : session) (totalImages : nat) (env : backend)
    (k : nat) (ref : string) : list output :=
  request s env k ref ::
  response chatId totalImages env (length (produced env (S k))) k.

(** The [k]-th call, tagged with its position among the calls. *)
Definition item_by_position (chatId : Z) (s : session) (totalImages : nat)
    (env : backend) (k : nat) (ref : string) : list output :=
  request s env k ref :: response chatId totalImages env (S k) k.

(** The references of the requests in a batch, in order. *)
Definition refs_called (out : list output) : list string :=
  omap (λ o, match o with WavespeedEdit _ ref _ _ => Some ref | _ => None end) out.

(** The URL the photo handler builds from the [file_path] of [getFile]. *)
Definition file_url (file_path : option string) : string :=
  "https://api.telegram.org/file/bot" +:+ TELEGRAM_TOKEN +:+ "/" +:+ show file_path.

(** [s.baseImages.push(u)] and [s.refImages.push(u)] *)
Definition push_base (u : string) (s : session) : session :=
  {| modelName := modelName s;
     baseImages := baseImages s ++ [u];
     refImages := refImages s;
     instagramHandles := instagramHandles s |}.

Definition push_ref (u : string) (s : session) : session :=
  {| modelName := modelName s;
     baseImages := baseImages s;
     refImages := refImages s ++ [u];
     instagramHandles := instagramHandles s |}.

(** The number of photos among the outputs. *)
Definition photos_sent (out : list output) : nat :=
  length (omap (λ o, match o with SendPhoto _ url _ => Some url | _ => None end) out).


(** The user may generate with session [s]: the four checks of
    [/generate] pass. *)
Definition ready (chatId : Z) (s : session) (st : store) : Prop :=
  getUserStatus (JS.IdNum chatId) st = Some approved ∧
  sessions st !! chatId = Some s ∧
  JS.truthy_opt (modelName s) = true ∧
  baseImages s ≠ [] ∧
  refImages s ≠ [].

(** The batch is within the daily limit. *)
Definition within_limit (chatId : Z) (s : session) (clock : Date) (st : store) : Prop :=
  getUsageCount (JS.IdNum chatId) clock st + Z.of_nat (plan_total s) ≤ DAILY_LIMIT.

(** The store after a batch that went through. *)
Definition after_batch (chatId : Z) (s : session) (clock' : Date) (st : store) : store :=
  let st1 := addUsage (JS.IdNum chatId) (Z.of_nat (plan_total s)) clock' st in
  set_sessions (delete chatId (sessions st1)) st1.

(** ** The Instagram fetchers

    [fetchInstagramImagesApify] and [fetchInstagramDirect] as functions
    of what their HTTP requests give back.  A [TypeError] raised by
    the engine (a property read on [null] or [undefined], a loop over
    a value that is not iterable, a call of a missing method) is
    written [Throws type_error]: its text is the engine's. *)

Definition type_error : string := "TypeError".

(** [it.image || it.display_url || it.imageUrl || it.images?.[0]] for
    an [it] that is not [null]. *)
Definition item_image (it : JS.json) : JS.value :=
  JS.or_value
    (JS.or_value
       (JS.or_value (JS.get (Some it) "image") (JS.get (Some it) "display_url"))
       (JS.get (Some it) "imageUrl"))
    (JS.get0 (JS.get (Some it) "images")).

(** The loop [for (const it of items) ...] over an array, from the
    [urls] collected so far. *)
Fixpoint apify_loop (limit : nat) (items : list JS.json) (urls : list JS.json)
    : outcome (list JS.json) :=
  match items with
  | [] => Returns urls
  | it :: rest =>
      match it with
      | JS.JNull => Throws type_error
      | _ =>
          let u := item_image it in
          let urls' := if JS.truthy_value u then urls ++ [default JS.JNull u] else urls in
          if (limit <=? length urls')%nat then Returns urls'
          else apify_loop limit rest urls'
      end
  end.

(** [runJson.defaultDatasetId || runJson.data?.defaultDataset?.id] *)
Definition dataset_id (runJson : JS.json) : JS.value :=
  JS.or_value (JS.get (Some runJson) "defaultDatasetId")
    (JS.get (JS.get (JS.get (Some runJson) "data") "defaultDataset") "id").

(** [fetchInstagramImagesApify(username, limit)]: [token] is
    APIFY_TOKEN, [run] what the actor run request gives back as JSON
    and [items] what the dataset request gives back as JSON. *)
Definition fetchInstagramImagesApify (token : option string) (limit : nat)
    (run items : outcome JS.json) : outcome (list JS.json) :=
  if negb (JS.truthy_opt token) then Throws "Apify token not configured"
  else
    match run with
    | Throws m => Throws m
    | Returns JS.JNull => Throws type_error
    | Returns runJson =>
        if negb (JS.truthy_value (dataset_id runJson)) then
          Throws "Apify run did not return dataset id; check actor"
        else
          match items with
          | Throws m => Throws m
          | Returns (JS.JArr l) => apify_loop limit l []
          | Returns (JS.JStr _) => Returns []
          | Returns _ => Throws type_error
          end
    end.

(** [e.node.display_url || e.node.thumbnail_src] *)
Definition edge_image (e : JS.json) : outcome JS.value :=
  match e with
  | JS.JNull => Throws type_error
  | _ =>
      match JS.get (Some e) "node" with
      | None | Some JS.JNull => Throws type_error
      | Some node =>
          Returns (JS.or_value (JS.get (Some node) "display_url")
                     (JS.get (Some node) "thumbnail_src"))
      end
  end.

(** [l.map(f)] for an [f] that may throw: the first exception ends it. *)
Fixpoint map_throwing {A B} (f : A → outcome B) (l : list A) : outcome (list B) :=
  match l with
  | [] => Returns []
  | x :: r =>
      match f x with
      | Throws m => Throws m
      | Returns y =>
          match map_throwing f r with
          | Throws m => Throws m
          | Returns ys => Returns (y :: ys)
          end
      end
  end.

(** [j.graphql?.user?.edge_owner_to_timeline_media?.edges ||
     j.entry_data?.ProfilePage?.[0]?.graphql?.user?.edge_owner_to_timeline_media?.edges] *)
Definition timeline_edges (j : JS.json) : JS.value :=
  let media v :=
    JS.get (JS.get (JS.get (JS.get v "graphql") "user") "edge_owner_to_timeline_media")
      "edges" in
  JS.or_value (media (Some j))
    (media (JS.get0 (JS.get (JS.get (Some j) "entry_data") "ProfilePage"))).

(** [fetchInstagramDirect(username, limit)]: [res] is what the request
    gives back, as [res.ok] and the result of [res.json()]. *)
Definition fetchInstagramDirect (limit : nat) (res : outcome (bool * outcome JS.json))
    : outcome (list JS.json) :=
  match res with
  | Throws m => Throws m
  | Returns (false, _) => Throws "Instagram public endpoint blocked"
  | Returns (true, Throws m) => Throws m
  | Returns (true, Returns JS.JNull) => Throws type_error
  | Returns (true, Returns j) =>
      let edges := timeline_edges j in
      if negb (JS.truthy_value edges) then Throws "No media found"
      else
        match edges with
        | Some (JS.JArr l) =>
            match map_throwing edge_image (take limit l) with
            | Throws m => Throws m
            | Returns imgs =>
                Returns (omap (λ v, if JS.truthy_value v then v else None) imgs)
            end
        | _ => Throws type_error
        end
  end.

(** ** Further notions used in the properties *)

(** [s] holds the byte [c]. *)
Fixpoint has_char (c : ascii) (s : string) : bool :=
  match s with
  | EmptyString => false
  | String b r => Ascii.eqb b c || has_char c r
  end.

(** The count of the ledger for a day key and a user key, 0 when there
    is none. *)
Definition count_at (d u : string) (st : store) : Z :=
  default 0 (usage st !! d ≫= λ m, m !! u).

(** The press comes from the admin and asks to approve or deny. *)
Definition admin_decision (e : event) : bool :=
  match e with
  | OnCallbackQuery (Some d) from _ =>
      (JS.startsWith "approve_" d || JS.startsWith "deny_" d) && is_admin from
  | _ => false
  end.

(** The images of the items that have one, in the order of the items. *)
Definition usable_images (items : list JS.json) : list JS.json :=
  omap (λ it, if JS.truthy_value (item_image it) then item_image it else None) items.

(** The chat a command or a message comes from ([ctx.chat.id]); a
    button press is handled by the id of the presser instead. *)
Definition chat_of (e : event) : option Z :=
  match e with
  | OnStart c | OnModel c _ | OnStatus c _ | OnFetchInstagram c _ _
  | OnGenerate c _ _ _ | OnMessage c _ _ _ _ => Some c
  | OnCallbackQuery _ _ _ => None
  end.

(** Every chat with a session, and every user with a count, has a
    record in the registry. *)
Definition all_registered (st : store) : Prop :=
  (∀ c, is_Some (sessions st !! c) → is_Some (users st !! pretty c)) ∧
  (∀ d m u, usage st !! d = Some m → is_Some (m !! u) → is_Some (users st !! u)).

(** ** Scenarios

    Concrete stores, clocks and backends, used to run the handlers. *)

Definition jan5 : Date :=
  {| getUTCFullYear := 2026; getUTCMonth := 0; getUTCDate := 5;
     toISOString := "2026-01-05T10:00:00.000Z" |}.

Definition jan6 : Date :=
  {| getUTCFullYear := 2026; getUTCMonth := 0; getUTCDate := 6;
     toISOString := "2026-01-06T00:00:01.000Z" |}.

Definition alice : sender :=
  {| from_id := 42; from_username := Some "alice";
     first_name := Some "Alice"; last_name := None |}.

Definition mallory : sender :=
  {| from_id := 666; from_username := Some "mallory";
     first_name := None; last_name := None |}.

Definition aria : session :=
  {| modelName := Some "Aria"; baseImages := ["base1"];
     refImages := ["ref1"; "ref2"]; instagramHandles := [] |}.

(** Chat 42 is approved and has composed the session [aria]; [used]
    images are already counted for it on 2026-01-05. *)
Definition composed (used : option Z) : store :=
  {| users := {[ "42" := {| status := approved; username := Some "alice";
                            requestedAt := Some "2026-01-04T09:00:00.000Z" |} ]};
     usage := match used with
              | Some n => {[ "2026-01-05" := {[ "42" := n ]} ]}
              | None => ∅
              end;
     sessions := {[ 42 := aria ]} |}.

Definition image (n : nat) : JS.json :=
  JS.JObj [("data", JS.JObj [("image_url", JS.JStr ("https://img/" +:+ pretty n))])].

(** Every call gives an image. *)
Definition all_succeed : backend :=
  {| seed_of := λ n, 1000 + Z.of_nat n; answer_of := λ n, Returns (image n) |}.

(** The second call throws, the others give an image. *)
Definition second_throws : backend :=
  {| seed_of := λ n, 1000 + Z.of_nat n;
     answer_of := λ n, if (n =? 1)%nat then Throws "timeout" else Returns (image n) |}.

(** A request for access, its approval by the admin, a session and
    two batches, the second one across midnight. *)
Definition busy_days : list event :=
  [ OnStart 42;
    OnCallbackQuery (Some "request_42") alice jan5;
    OnCallbackQuery (Some "approve_42")
      {| from_id := 1; from_username := None; first_name := None; last_name := None |} jan5;
    OnModel 42 "/model Aria";
    OnMessage 42 alice (Some ["small"; "large"]) (Returns (Some "photos/1.jpg")) jan5;
    OnMessage 42 alice (Some ["small"; "large"]) (Returns (Some "photos/2.jpg")) jan5;
    OnMessage 42 alice (Some ["small"; "large"]) (Returns (Some "photos/3.jpg")) jan5;
    OnGenerate 42 jan5 jan5 second_throws;
    OnStatus 42 jan5;
    OnFetchInstagram 42 "/fetch_instagram @aria" (Returns ["i1"; "i2"; "i3"; "i4"]);
    OnModel 42 "/model Aria";
    OnMessage 42 alice (Some ["large"]) (Returns (Some "photos/4.jpg")) jan5;
    OnGenerate 42 jan5 jan6 all_succeed;
    OnStatus 42 jan6 ].

(** The admin of the scenarios: ADMIN_ID is ["1"]. *)
Definition boss : sender :=
  {| from_id := 1; from_username := Some "boss"; first_name := None; last_name := None |}.

(** A run in which the admin decides nothing: a request, an Approve
    press by someone else, and attempts to use the bot. *)
Definition quiet_days : list event :=
  [ OnStart 42;
    OnCallbackQuery (Some "request_42") alice jan5;
    OnCallbackQuery (Some "approve_42") mallory jan5;
    OnModel 42 "/model Aria";
    OnMessage 42 alice (Some ["small"; "large"]) (Returns (Some "photos/1.jpg")) jan5;
    OnFetchInstagram 42 "/fetch_instagram @aria" (Returns ["i1"; "i2"]);
    OnGenerate 42 jan5 jan5 all_succeed;
    OnStatus 42 jan5 ].

(** A photo from a chat nobody has registered, and the record it
    gives the sender. *)
Definition stranger_photo : event :=
  OnMessage 42 alice (Some ["f"]) (Returns None) jan5.

Definition pending_alice : user_record :=
  {| status := pending; username := Some "alice";
     requestedAt := Some "2026-01-05T10:00:00.000Z" |}.

(** Chat 42 changes its model name. *)
Definition rename_model : event := OnModel 42 "/model Bea".

(** Items as an Apify dataset may hold them: two usable ones around
    one without an image, then [null]. *)
Definition dataset : list JS.json :=
  [ JS.JObj [("image", JS.JStr "a")];
    JS.JObj [("caption", JS.JStr "no picture")];
    JS.JObj [("images", JS.JArr [JS.JStr "b"; JS.JStr "c"])];
    JS.JNull ].

(** A profile answer of the public endpoint with three edges. *)
Definition profile : JS.json :=
  JS.JObj
    [("graphql",
      JS.JObj
        [("user",
          JS.JObj
            [("edge_owner_to_timeline_media",
              JS.JObj
                [("edges",
                  JS.JArr
                    [ JS.JObj [("node", JS.JObj [("display_url", JS.JStr "p1")])];
                      JS.JObj [("node", JS.JObj [("thumbnail_src", JS.JStr "p2")])];
                      JS.JObj [("node", JS.JObj [("id", JS.JStr "3")])] ])])])])].

(** ** Lemmas on the loop *)

Lemma variations_flat chatId s total env acc ref :
  variations chatId s total env acc ref =
  foldl (λ a r, variation chatId s total env r a) acc (replicate variationsPerRef ref).
Proof. reflexivity. Qed.

Lemma generation_loop_flat chatId s total env refs acc :
  foldl (variations chatId s total env) acc refs =
  foldl (λ a r, variation chatId s total env r a) acc (jobs refs).
Proof.
  revert acc. induction refs as [|r refs IH]; intros acc; [done|].
  cbn [foldl]. rewrite IH. unfold jobs. cbn [mbind list_bind].
  rewrite foldl_app. reflexivity.
Qed.

Lemma produced_S env n :
  produced env (S n) = produced env n ++ from_option (λ u, [u]) [] (delivered env n).
Proof.
  unfold produced. rewrite seq_S, omap_app. cbn.
  destruct (delivered env n); reflexivity.
Qed.

Lemma variation_item chatId s total env ref acc :
  generatedUrls acc = produced env (calls acc) →
  variation chatId s total env ref acc =
  {| calls := S (calls acc);
     generatedUrls := produced env (S (calls acc));
     sent := sent acc ++ item chatId s total env (calls acc) ref |}.
Proof.
  intros Hacc. unfold variation, item, response, request.
  rewrite produced_S. unfold delivered.
  destruct (callWavespeedEdit (answer_of env (calls acc))) as [wres|m].
  - destruct (JS.truthy_json (find_url wres)); cbn;
      rewrite Hacc; [|rewrite app_nil_r]; reflexivity.
  - cbn. rewrite Hacc, app_nil_r. reflexivity.
Qed.

Lemma loop_from chatId s total env js :
  ∀ acc, generatedUrls acc = produced env (calls acc) →
  foldl (λ a r, variation chatId s total env r a) acc js =
  {| calls := calls acc + length js;
     generatedUrls := produced env (calls acc + length js);
     sent := sent acc ++
             concat (imap (λ i, item chatId s total env (calls acc + i)) js) |}.
Proof.
  induction js as [|r js IH]; intros acc Hacc.
  - cbn. rewrite Nat.add_0_r, app_nil_r, <- Hacc. by destruct acc.
  - cbn [foldl]. rewrite IH; rewrite (variation_item _ _ _ _ _ _ Hacc); [|done].
    cbn [calls generatedUrls sent length imap concat].
    rewrite Nat.add_0_r, <- app_assoc, !Nat.add_succ_r. cbn [Nat.add].
    rewrite (imap_ext (λ i, item chatId s total env (S (calls acc + i)))
               ((λ i, item chatId s total env (calls acc + i)) ∘ S) js); [done|].
    intros i x _. cbn. by rewrite Nat.add_succ_r.
Qed.

(** The loop makes the calls of [jobs refs] one after the other. *)
Lemma generation_loop_items chatId s total env refs :
  generation_loop chatId s total env refs =
  {| calls := length (jobs refs);
     generatedUrls := produced env (length (jobs refs));
     sent := concat (imap (item chatId s total env) (jobs refs)) |}.
Proof.
  unfold generation_loop. rewrite generation_loop_flat, loop_from; [|done].
  reflexivity.
Qed.

Lemma jobs_length refs : length (jobs refs) = (length refs * variationsPerRef)%nat.
Proof.
  unfold jobs. induction refs as [|r refs IH]; [done|].
  rewrite bind_cons, length_app, length_replicate, IH. reflexivity.
Qed.

Lemma not_approved_approved o : not_approved o = false ↔ o = Some approved.
Proof. destruct o as [[]|]; cbn; split; congruence. Qed.

(** What [/generate] does once its four checks pass. *)
Lemma generate_ready chatId s clock clock' env st :
  ready chatId s st →
  generate chatId clock clock' env st =
  if getUsageCount (JS.IdNum chatId) clock st + Z.of_nat (plan_total s) >? DAILY_LIMIT
  then (st, [Reply (msg_limit (getUsageCount (JS.IdNum chatId) clock st)
                      DAILY_LIMIT (plan_total s))])
  else (after_batch chatId s clock' st,
        [Reply (msg_generating (plan_total s))] ++
        concat (imap (item chatId s (plan_total s) env) (jobs (plan_refs s))) ++
        [Reply (msg_done (length (produced env (plan_total s))))]).
Proof.
  intros (Hst & Hs & Hm & Hb & Hr). unfold generate.
  rewrite (proj2 (not_approved_approved _) Hst), Hs, Hm. cbn [negb].
  destruct (baseImages s) as [|b bs] eqn:Eb; [done|].
  destruct (refImages s) as [|r rs] eqn:Er; [done|].
  cbn [length Nat.ltb Nat.leb].
  destruct (_ >? _); [done|].
  rewrite generation_loop_items. cbn [sent generatedUrls].
  rewrite jobs_length. reflexivity.
Qed.

Lemma refs_of_item chatId s total env k ref :
  refs_called (item chatId s total env k ref) = [ref].
Proof.
  unfold refs_called, item, request, response. cbn.
  destruct (callWavespeedEdit _); [|done]. by destruct (JS.truthy_json _).
Qed.

Lemma refs_of_items chatId s total env refs :
  refs_called (concat (imap (item chatId s total env) (jobs refs))) =
  refs ≫= λ r, [r; r].
Proof.
  change (λ r : string, [r; r]) with (λ r : string, replicate variationsPerRef r).
  fold (jobs refs). generalize (jobs refs). intros js.
  generalize (item chatId s total env), (refs_of_item chatId s total env).
  induction js as [|j js IH]; intros f Hf; [done|].
  cbn [imap concat]. unfold refs_called in *. rewrite omap_app, Hf. cbn. f_equal.
  apply IH. intros k r. apply Hf.
Qed.

(** ** Properties *)

(** C7.  For a user (a chat id) without a record, [ensureUserPending]
    returns [true] and adds one record, with status pending, leaving
    every other record and the other stores as they were; the status
    read back is pending; calling it again changes nothing and returns
    [false].  For a user who has a record, in any store, it changes
    nothing and returns [false]. *)
Theorem ensureUserPending_once (U : Z) (name : string) (now : Date) (st : store) :
  users st !! JS.String_ (JS.IdNum U) = None →
  ∃ st1,
    ensureUserPending (JS.IdNum U) name now st = (true, st1) ∧
    size (users st1) = S (size (users st)) ∧
    (∀ k, k ≠ JS.String_ (JS.IdNum U) → users st1 !! k = users st !! k) ∧
    usage st1 = usage st ∧ sessions st1 = sessions st ∧
    getUserStatus (JS.IdNum U) st1 = Some pending ∧
    (∀ name' now', ensureUserPending (JS.IdNum U) name' now' st1 = (false, st1)) ∧
    (∀ st' name' now',
       is_Some (users st' !! JS.String_ (JS.IdNum U)) →
       ensureUserPending (JS.IdNum U) name' now' st' = (false, st')).
Proof.
  intros Hnone. unfold ensureUserPending at 1. rewrite Hnone.
  eexists. split; [reflexivity|]. cbn [users usage sessions writeUsers].
  split; [by apply map_size_insert_None|].
  split; [intros k Hk; by rewrite lookup_insert_ne|].
  do 2 (split; [reflexivity|]).
  split; [unfold getUserStatus; cbn [users writeUsers]; by rewrite lookup_insert_eq|].
  split.
  - intros name' now'. unfold ensureUserPending. cbn [users writeUsers].
    by rewrite lookup_insert_eq.
  - intros st' name' now' [r Hr]. unfold ensureUserPending. by rewrite Hr.
Qed.

(** C3.  The plan of [/generate] takes the first
    [min 3 (length refImages)] reference images in their order, with
    2 variations for each, so [min 3 (length refImages) * 2] images
    in all; and when the batch goes through, the handler announces
    that number and calls the backend on exactly these references,
    twice each, in that order. *)
Theorem generation_plan (chatId : Z) (s : session) (clock clock' : Date)
    (env : backend) (st : store) :
  refImages s ≠ [] →
  let n := (3 `min` length (refImages s))%nat in
  plan_refs s = take n (refImages s) ∧
  length (plan_refs s) = n ∧
  (∀ i, (i < n)%nat → plan_refs s !! i = refImages s !! i) ∧
  variationsPerRef = 2%nat ∧
  plan_total s = (n * 2)%nat ∧
  (1 ≤ n ≤ 3)%nat ∧
  (ready chatId s st → within_limit chatId s clock st →
   ∃ out,
     snd (generate chatId clock clock' env st) =
     Reply (msg_generating (n * 2)) :: out ∧
     refs_called out = take n (refImages s) ≫= λ r, [r; r]).
Proof.
  intros Hne n.
  assert (Hlen : length (plan_refs s) = n).
  { unfold plan_refs. by rewrite length_take. }
  assert (Htake : plan_refs s = take n (refImages s)).
  { unfold plan_refs, n. destruct (Nat.min_spec 3 (length (refImages s))) as [[_ ->]|[Hle ->]].
    - done.
    - by rewrite !take_ge by lia. }
  assert (Htot : plan_total s = (n * 2)%nat).
  { unfold plan_total. by rewrite Hlen. }
  split; [done|]. split; [done|].
  split. { intros i Hi. rewrite Htake. by apply lookup_take_lt. }
  split; [done|]. split; [done|].
  split. { destruct (refImages s); [done|]. subst n. cbn [length]. lia. }
  clearbody n.
  intros Hready Hlim. rewrite (generate_ready _ _ _ _ _ _ Hready).
  unfold within_limit in Hlim.
  destruct (Z.gtb_spec (getUsageCount (JS.IdNum chatId) clock st + Z.of_nat (plan_total s))
              DAILY_LIMIT) as [Hgt|_]; [lia|].
  cbn [snd app]. rewrite Htot. eexists. split; [reflexivity|].
  unfold refs_called. rewrite omap_app. cbn. rewrite app_nil_r, <- Htake.
  apply refs_of_items.
Qed.

(** C4.  [/generate] checks, in this order, that the user is approved,
    that a session with a model name exists, that there is a base
    image and that there is a reference image.  The first check that
    fails answers with its own message, different from the other
    three, and nothing else happens: the stores are unchanged and the
    answer is the only output, so no call reaches the backend. *)
Theorem generate_checks_in_order (chatId : Z) (clock clock' : Date)
    (env : backend) (st : store) :
  (getUserStatus (JS.IdNum chatId) st ≠ Some approved →
   generate chatId clock clock' env st = (st, [Reply msg_not_approved])) ∧
  (getUserStatus (JS.IdNum chatId) st = Some approved →
   (sessions st !! chatId = None ∨
    ∃ s, sessions st !! chatId = Some s ∧ JS.truthy_opt (modelName s) = false) →
   generate chatId clock clock' env st = (st, [Reply msg_no_model])) ∧
  (∀ s, getUserStatus (JS.IdNum chatId) st = Some approved →
        sessions st !! chatId = Some s → JS.truthy_opt (modelName s) = true →
        baseImages s = [] →
        generate chatId clock clock' env st = (st, [Reply msg_no_base])) ∧
  (∀ s, getUserStatus (JS.IdNum chatId) st = Some approved →
        sessions st !! chatId = Some s → JS.truthy_opt (modelName s) = true →
        baseImages s ≠ [] → refImages s = [] →
        generate chatId clock clock' env st = (st, [Reply msg_no_ref])) ∧
  NoDup [msg_not_approved; msg_no_model; msg_no_base; msg_no_ref].
Proof.
  repeat split.
  - intros Hst. unfold generate.
    destruct (not_approved _) eqn:E; [done|].
    by apply not_approved_approved in E.
  - intros Hst Hs. unfold generate.
    rewrite (proj2 (not_approved_approved _) Hst).
    destruct Hs as [->|(s & -> & ->)]; done.
  - intros s Hst Hs Hm Hb. unfold generate.
    by rewrite (proj2 (not_approved_approved _) Hst), Hs, Hm, Hb.
  - intros s Hst Hs Hm Hb Hr. unfold generate.
    rewrite (proj2 (not_approved_approved _) Hst), Hs, Hm, Hr.
    by destruct (baseImages s).
  - apply (bool_decide_unpack _). by vm_compute.
Qed.

(** C1.  When the four checks of [/generate] pass, the batch is turned
    down for quota exactly when today's count plus the number of
    images of the plan is above DAILY_LIMIT.  Turned down means: the
    stores are unchanged and the only output is one message, which
    shows the count and the limit; no call reaches the backend.  When
    the sum is at most the limit, and so when it equals the limit, the
    batch goes through: the backend is called once for each image of
    the plan and the store becomes the store after a batch. *)
Theorem quota_check (chatId : Z) (s : session) (clock clock' : Date)
    (env : backend) (st : store) :
  ready chatId s st →
  let used := getUsageCount (JS.IdNum chatId) clock st in
  let total := plan_total s in
  let rejection :=
    Reply ("⚠️ Daily limit exceeded. You have used " +:+ pretty used +:+ "/" +:+
           pretty DAILY_LIMIT +:+ " images today. This request would generate " +:+
           pretty total +:+ ".") in
  (generate chatId clock clock' env st = (st, [rejection]) ↔
   used + Z.of_nat total > DAILY_LIMIT) ∧
  (used + Z.of_nat total ≤ DAILY_LIMIT →
   fst (generate chatId clock clock' env st) = after_batch chatId s clock' st ∧
   ∃ out, snd (generate chatId clock clock' env st) =
          Reply (msg_generating total) :: out ∧
          length (refs_called out) = total) ∧
  (used + Z.of_nat total = DAILY_LIMIT →
   generate chatId clock clock' env st ≠ (st, [rejection])).
Proof.
  intros Hready used total rejection.
  pose proof (generate_ready chatId s clock clock' env st Hready) as Hgen.
  fold used total in Hgen.
  assert (Hok : used + Z.of_nat total ≤ DAILY_LIMIT →
                generate chatId clock clock' env st =
                (after_batch chatId s clock' st,
                 [Reply (msg_generating total)] ++
                 concat (imap (item chatId s total env) (jobs (plan_refs s))) ++
                 [Reply (msg_done (length (produced env total)))])).
  { intros Hle. rewrite Hgen. destruct (Z.gtb_spec (used + Z.of_nat total) DAILY_LIMIT); [lia|done]. }
  assert (Hno : used + Z.of_nat total ≤ DAILY_LIMIT →
                generate chatId clock clock' env st ≠ (st, [rejection])).
  { intros Hle. rewrite (Hok Hle). intros Habs.
    apply (f_equal (λ x, length (snd x))) in Habs. cbn [snd app length] in Habs.
    rewrite length_app in Habs. cbn [length] in Habs. lia. }
  split; [split|split].
  - intros Heq. destruct (Z_le_gt_dec (used + Z.of_nat total) DAILY_LIMIT) as [Hle|]; [|done].
    by destruct (Hno Hle).
  - intros Hgt. rewrite Hgen.
    destruct (Z.gtb_spec (used + Z.of_nat total) DAILY_LIMIT); [done|lia].
  - intros Hle. rewrite (Hok Hle). cbn [fst snd app]. split; [done|].
    eexists. split; [reflexivity|].
    unfold refs_called. rewrite omap_app. cbn. rewrite app_nil_r.
    fold (refs_called (concat (imap (item chatId s total env) (jobs (plan_refs s))))).
    rewrite refs_of_items. fold (jobs (plan_refs s)).
    by rewrite jobs_length.
  - intros Heq. apply Hno. lia.
Qed.

Lemma startsWith_other (p q d : string) a b :
  a ≠ b → JS.startsWith (String a p) d = true → JS.startsWith (String b q) d = false.
Proof.
  intros Hab. destruct d as [|c d]; cbn; [done|].
  destruct (Ascii.eqb_spec a c) as [->|]; [|done].
  destruct (Ascii.eqb_spec b c) as [->|]; done.
Qed.

(** C6.  A press of an Approve or Deny button (callback data beginning
    with [approve_] or [deny_]) by anyone whose id, as a string,
    differs from ADMIN_ID changes no store and only acknowledges the
    press with an empty answer: the registry, and so the status of
    every user, is as before, no message is sent to anyone, and
    nothing is reported to the presser. *)
Theorem non_admin_press_ignored (data : string) (from : sender) (now : Date)
    (st : store) :
  JS.startsWith "approve_" data = true ∨ JS.startsWith "deny_" data = true →
  JS.String_ (JS.IdNum (from_id from)) ≠ JS.String_ (JS.IdStr ADMIN_ID) →
  callback_query (Some data) from now st = (st, [AnswerCbQuery None]) ∧
  users (fst (callback_query (Some data) from now st)) = users st ∧
  (∀ U, getUserStatus U (fst (callback_query (Some data) from now st)) =
        getUserStatus U st) ∧
  (∀ o, o ∈ snd (callback_query (Some data) from now st) → o = AnswerCbQuery None).
Proof.
  intros Hdata Hfrom.
  assert (Heq : callback_query (Some data) from now st = (st, [AnswerCbQuery None])).
  { unfold callback_query.
    assert (Hadm : is_admin from = false).
    { unfold is_admin. by destruct (String.eqb_spec (JS.String_ (JS.IdNum (from_id from)))
                                     (JS.String_ (JS.IdStr ADMIN_ID))). }
    rewrite Hadm, !andb_false_r.
    assert (Hreq : JS.startsWith "request_" data = false).
    { destruct Hdata as [H|H]; revert H; by apply startsWith_other. }
    by rewrite Hreq, andb_false_r. }
  rewrite Heq. cbn [fst snd]. do 3 (split; [done|]).
  intros o Ho. by apply list_elem_of_singleton in Ho.
Qed.

(** C10.  [/model] looks at its argument before it looks at the user.
    When the argument (the words after the command, joined and trimmed)
    is empty, the answer is the usage hint and no store changes,
    whatever the status of the user.  The not-approved answer is given
    exactly when the argument is not empty and the user is not
    approved. *)
Theorem model_argument_checked_first (chatId : Z) (text : string) (st : store) :
  (model_argument text = "" → model chatId text st = (st, [Reply msg_model_usage])) ∧
  (snd (model chatId text st) = [Reply msg_model_locked] ↔
   model_argument text ≠ "" ∧ getUserStatus (JS.IdNum chatId) st ≠ Some approved) ∧
  (snd (model chatId text st) = [Reply msg_model_locked] →
   fst (model chatId text st) = st) ∧
  model_argument "/model" = "" ∧
  msg_model_usage ≠ msg_model_locked.
Proof.
  assert (Hempty : JS.truthy (model_argument text) = false ↔ model_argument text = "").
  { unfold JS.truthy. destruct (String.eqb_spec (model_argument text) ""); cbn; split; congruence. }
  split; [|split; [|split; [|split]]].
  - intros Harg. unfold model. by rewrite (proj2 Hempty Harg).
  - unfold model. destruct (JS.truthy (model_argument text)) eqn:Et; cbn [negb].
    + assert (Hne : model_argument text ≠ "").
      { intros Habs. apply Hempty in Habs. congruence. }
      destruct (not_approved _) eqn:Ea; cbn [snd].
      * split; [|done]. intros _. split; [done|].
        intros Habs. apply not_approved_approved in Habs. congruence.
      * apply not_approved_approved in Ea. split.
        -- by intros [=].
        -- intros [_ Habs]. done.
    + cbn [snd]. split; [discriminate|]. intros [Habs _]. exfalso. by apply Habs, Hempty.
  - unfold model. destruct (JS.truthy (model_argument text)); cbn [negb]; [|done].
    destruct (not_approved _) eqn:Ea; cbn [fst snd]; [done|].
    by intros [=].
  - reflexivity.
  - discriminate.
Qed.

(** What the photo handler does for an approved user whose file
    resolves. *)
Lemma message_approved chatId from sizes p now st :
  getUserStatus (JS.IdNum chatId) st = Some approved →
  sizes ≠ [] →
  let s := default empty_session (sessions st !! chatId) in
  fst (message chatId from (Some sizes) (Returns p) now st) =
  set_sessions
    (<[chatId := if is_base s then push_base (file_url p) s else push_ref (file_url p) s]>
       (sessions st)) st.
Proof.
  intros Hst Hsizes s. unfold message.
  destruct sizes as [|x sizes]; [done|]. cbn [length Nat.eqb].
  rewrite (proj2 (not_approved_approved _) Hst). fold s.
  by destruct (is_base s).
Qed.

Lemma is_base_spec s :
  is_base s = true ↔
  JS.truthy_opt (modelName s) = false ∨ (length (baseImages s) < 2)%nat.
Proof.
  unfold is_base. rewrite orb_true_iff, negb_true_iff, Nat.ltb_lt. reflexivity.
Qed.

(** C5.  For a photo sent by an approved user (and once its file is
    resolved), the image is appended to [baseImages] exactly when the
    session has no model name or fewer than 2 base images, and to
    [refImages] otherwise; the registry, the ledger and the sessions
    of other chats stay as they were.  So, from no session at all, the
    first two photos are base images though no model name is set, and
    after [/model] has set a name the third photo is a reference
    image; with a name set and exactly 2 base images a photo is a
    reference image. *)
Theorem photo_classified (chatId : Z) (from : sender) (sizes : list string)
    (p : option string) (now : Date) (st : store) :
  getUserStatus (JS.IdNum chatId) st = Some approved →
  sizes ≠ [] →
  let s := default empty_session (sessions st !! chatId) in
  let st' := fst (message chatId from (Some sizes) (Returns p) now st) in
  (is_base s = true ↔
   JS.truthy_opt (modelName s) = false ∨ (length (baseImages s) < 2)%nat) ∧
  (is_base s = true → sessions st' !! chatId = Some (push_base (file_url p) s)) ∧
  (is_base s = false → sessions st' !! chatId = Some (push_ref (file_url p) s)) ∧
  (JS.truthy_opt (modelName s) = true → length (baseImages s) = 2%nat →
   sessions st' !! chatId = Some (push_ref (file_url p) s)) ∧
  users st' = users st ∧ usage st' = usage st ∧
  (∀ c, c ≠ chatId → sessions st' !! c = sessions st !! c) ∧
  (sessions st !! chatId = None →
   ∀ from2 sizes2 p2 now2 text from3 sizes3 p3 now3,
     sizes2 ≠ [] → sizes3 ≠ [] → model_argument text ≠ "" →
     let st2 := fst (message chatId from2 (Some sizes2) (Returns p2) now2 st') in
     let st3 := fst (model chatId text st2) in
     let st4 := fst (message chatId from3 (Some sizes3) (Returns p3) now3 st3) in
     sessions st2 !! chatId =
       Some {| modelName := None; baseImages := [file_url p; file_url p2];
               refImages := []; instagramHandles := [] |} ∧
     sessions st4 !! chatId =
       Some {| modelName := Some (model_argument text);
               baseImages := [file_url p; file_url p2];
               refImages := [file_url p3]; instagramHandles := [] |}).
Proof.
  intros Hst Hsizes s st'.
  assert (Hst' : st' = set_sessions
            (<[chatId := if is_base s then push_base (file_url p) s
                         else push_ref (file_url p) s]> (sessions st)) st).
  { by apply message_approved. }
  split; [apply is_base_spec|].
  split. { intros Hb. rewrite Hst'. cbn. by rewrite lookup_insert_eq, Hb. }
  split. { intros Hb. rewrite Hst'. cbn. by rewrite lookup_insert_eq, Hb. }
  split.
  { intros Hm Hl. rewrite Hst'. cbn. rewrite lookup_insert_eq.
    unfold is_base. by rewrite Hm, Hl. }
  split; [by rewrite Hst'|]. split; [by rewrite Hst'|].
  split. { intros c Hc. rewrite Hst'. cbn. by rewrite lookup_insert_ne. }
  intros Hnone from2 sizes2 p2 now2 text from3 sizes3 p3 now3 Hs2 Hs3 Harg st2 st3 st4.
  assert (Hs : s = empty_session) by (unfold s; by rewrite Hnone).
  assert (H1 : sessions st' !! chatId = Some (push_base (file_url p) empty_session)).
  { rewrite Hst'. cbn. by rewrite lookup_insert_eq, Hs. }
  assert (Ha1 : getUserStatus (JS.IdNum chatId) st' = Some approved) by by rewrite Hst'.
  assert (Hst2 : st2 = set_sessions
            (<[chatId := push_base (file_url p2) (push_base (file_url p) empty_session)]>
               (sessions st')) st').
  { unfold st2. rewrite (message_approved _ _ _ _ _ _ Ha1 Hs2). by rewrite H1. }
  assert (H2 : sessions st2 !! chatId =
               Some (push_base (file_url p2) (push_base (file_url p) empty_session))).
  { rewrite Hst2. cbn. by rewrite lookup_insert_eq. }
  split; [exact H2|].
  assert (Ha2 : getUserStatus (JS.IdNum chatId) st2 = Some approved) by by rewrite Hst2.
  assert (Ht : JS.truthy (model_argument text) = true).
  { unfold JS.truthy. by destruct (String.eqb_spec (model_argument text) ""). }
  assert (Hst3 : st3 = set_sessions
            (<[chatId := {| modelName := Some (model_argument text);
                            baseImages := [file_url p; file_url p2];
                            refImages := []; instagramHandles := [] |}]>
               (sessions st2)) st2).
  { unfold st3, model. rewrite Ht, (proj2 (not_approved_approved _) Ha2), H2. done. }
  assert (Ha3 : getUserStatus (JS.IdNum chatId) st3 = Some approved) by by rewrite Hst3.
  unfold st4. rewrite (message_approved _ _ _ _ _ _ Ha3 Hs3).
  rewrite Hst3. cbn. rewrite !lookup_insert_eq. cbn.
  unfold is_base. cbn. by rewrite Ht.
Qed.

Lemma photos_of_item chatId s total env k ref :
  photos_sent (item chatId s total env k ref) =
  length (from_option (λ u, [u]) [] (delivered env k)).
Proof.
  unfold photos_sent, item, request, response, delivered.
  destruct (callWavespeedEdit _); [|done]. by destruct (JS.truthy_json _).
Qed.

Lemma photos_of_items chatId s total env js :
  ∀ a, photos_sent (concat (imap (λ i, item chatId s total env (a + i)) js)) =
       length (omap (delivered env) (seq a (length js))).
Proof.
  induction js as [|j js IH]; intros a; [done|].
  cbn [imap concat length seq]. unfold photos_sent in *.
  rewrite omap_app, length_app.
  fold (photos_sent (item chatId s total env (a + 0) j)).
  rewrite photos_of_item, Nat.add_0_r.
  rewrite (imap_ext ((λ i, item chatId s total env (a + i)) ∘ S)
             (λ i, item chatId s total env (S a + i)) js).
  - rewrite (IH (S a)). cbn [omap list_omap].
    by destruct (delivered env a).
  - intros i x _. cbn. by rewrite Nat.add_succ_r.
Qed.

Lemma omap_length_le {A B} (f : A → option B) (l : list A) :
  (length (omap f l) ≤ length l)%nat.
Proof.
  induction l as [|x l IH]; [done|]. cbn. destruct (f x); cbn; lia.
Qed.



(** *** The clock *)





(** *** The ledger *)

Lemma handle_keeps_usage e st :
  (∀ c k k' env, e ≠ OnGenerate c k k' env) →
  usage (fst (handle e st)) = usage st.
Proof.
  intros Hne. destruct e as [c|data from now|c text|c clock|c text fetched|c k k' env|c from photo file now];
    cbn [handle].
  - done.
  - unfold callback_query. destruct data as [d|]; [|done].
    repeat (destruct (_ && _); [try done|]); try done.
    unfold ensureUserPending. by destruct (users st !! _).
  - unfold model. repeat (destruct (negb _) || destruct (not_approved _)); done.
  - done.
  - unfold fetch_instagram. destruct (not_approved _); [done|].
    destruct (negb _); [done|]. destruct fetched as [imgs|m]; [|done].
    by destruct (_ =? _)%nat.
  - by destruct (Hne c k k' env).
  - unfold message. destruct photo as [sizes|]; [|done].
    destruct (_ =? _)%nat; [done|].
    destruct (not_approved _).
    + unfold ensureUserPending. by destruct (users st !! _).
    + destruct file as [fp|m]; [|done]. by destruct (is_base _).
Qed.

Lemma generate_cases chatId clock clock' env st :
  fst (generate chatId clock clock' env st) = st ∨
  ∃ s, ready chatId s st ∧ within_limit chatId s clock st ∧
       fst (generate chatId clock clock' env st) = after_batch chatId s clock' st.
Proof.
  destruct (getUserStatus (JS.IdNum chatId) st) as [[]|] eqn:Hst;
    try (left; unfold generate; by rewrite Hst).
  destruct (sessions st !! chatId) as [s|] eqn:Hs;
    [|left; unfold generate; by rewrite Hst, Hs].
  destruct (JS.truthy_opt (modelName s)) eqn:Hm;
    [|left; unfold generate; by rewrite Hst, Hs, Hm].
  destruct (baseImages s) as [|b bs] eqn:Hb;
    [left; unfold generate; by rewrite Hst, Hs, Hm, Hb|].
  destruct (refImages s) as [|r rs] eqn:Hr;
    [left; unfold generate; by rewrite Hst, Hs, Hm, Hb, Hr|].
  assert (Hready : ready chatId s st).
  { unfold ready. rewrite Hb, Hr. done. }
  rewrite (generate_ready _ _ clock clock' env _ Hready).
  destruct (Z.gtb_spec (getUsageCount (JS.IdNum chatId) clock st + Z.of_nat (plan_total s))
              DAILY_LIMIT) as [Hgt|Hle]; [by left|].
  right. exists s. unfold within_limit. done.
Qed.







Lemma produced_all env k :
  (∀ j, (j < k)%nat → is_Some (delivered env j)) → length (produced env k) = k.
Proof.
  induction k as [|k IH]; intros Hall; [done|].
  rewrite produced_S, length_app, IH by (intros j Hj; apply Hall; lia).
  destruct (Hall k) as [u ->]; [lia|]. cbn. lia.
Qed.

Lemma produced_le env k : (length (produced env k) ≤ k)%nat.
Proof.
  unfold produced. etrans; [apply omap_length_le|]. by rewrite length_seq.
Qed.

(** C8 (amended).  In a batch that goes through, the backend is called
    for reference 0 twice, then for reference 1 twice, and so on, each
    call with the first base image and with the prompt built from the
    model name; an image obtained from a call is sent to the user
    right after that call and before the next one, so in the order of
    the calls.  Its caption is [Result k/total] where [k] counts the
    images sent so far in the batch, this one included: [k] is the
    position of the call when every earlier call gave an image, and is
    smaller when one of them failed. *)
Theorem calls_in_order_results_counted (chatId : Z) (s : session)
    (clock clock' : Date) (env : backend) (st : store) :
  ready chatId s st →
  within_limit chatId s clock st →
  let total := plan_total s in
  ∃ b name,
    baseImages s !! 0%nat = Some b ∧ modelName s = Some name ∧
    snd (generate chatId clock clock' env st) =
      [Reply (msg_generating total)] ++
      concat
        (imap
           (λ k ref,
              WavespeedEdit (Some b) ref
                ("A realistic portrait of " +:+ name +:+
                 ", matching the pose/outfit of the reference, ultra realistic, cinematic lighting, consistent face, photo quality.")
                (seed_of env k) ::
              response chatId total env (S (length (produced env k))) k)
           (plan_refs s ≫= λ r, [r; r])) ++
      [Reply (msg_done (length (produced env total)))] ∧
    (∀ k u tag, delivered env k = Some u →
       response chatId total env tag k =
       [SendPhoto (JS.IdNum chatId) u
          ("Result " +:+ pretty tag +:+ "/" +:+ pretty total)]) ∧
    (∀ k tag, delivered env k = None →
       ∀ o, o ∈ response chatId total env tag k →
            match o with SendPhoto _ _ _ => False | _ => True end) ∧
    (∀ k, (S (length (produced env k)) ≤ S k)%nat) ∧
    (∀ k, (∀ j, (j < k)%nat → is_Some (delivered env j)) →
          S (length (produced env k)) = S k).
Proof.
  intros Hready Hlim total.
  pose proof Hready as (Hst & Hs & Hm & Hb & Hr).
  destruct (baseImages s) as [|b bs] eqn:Eb; [done|].
  destruct (modelName s) as [name|] eqn:Em; [|done].
  exists b, name. split; [done|]. split; [done|].
  split.
  { rewrite (generate_ready _ _ _ _ _ _ Hready). unfold within_limit in Hlim.
    fold total in Hlim |- *.
    destruct (Z.gtb_spec (getUsageCount (JS.IdNum chatId) clock st + Z.of_nat total)
                DAILY_LIMIT) as [Hgt|_]; [lia|].
    cbn [snd]. do 2 f_equal. f_equal. unfold jobs.
    change (λ r : string, replicate variationsPerRef r) with (λ r : string, [r; r]).
    apply imap_ext. intros k ref _. unfold item, request, prompt_for.
    rewrite Eb, Em. cbn [lookup list_lookup show]. f_equal.
    rewrite produced_S. unfold response, delivered.
    destruct (callWavespeedEdit (answer_of env k)) as [wres|m]; [|done].
    destruct (JS.truthy_json (find_url wres)); [|done].
    rewrite length_app. cbn [from_option length]. by rewrite Nat.add_1_r. }
  split.
  { intros k u tag. unfold delivered, response.
    destruct (callWavespeedEdit (answer_of env k)) as [wres|m]; [|done].
    destruct (JS.truthy_json (find_url wres)); [|done]. by intros [= ->]. }
  split.
  { intros k tag. unfold delivered, response.
    destruct (callWavespeedEdit (answer_of env k)) as [wres|m].
    - destruct (JS.truthy_json (find_url wres)); [done|].
      intros _ o Ho. apply elem_of_cons in Ho as [->|Ho]; [done|].
      by apply list_elem_of_singleton in Ho as ->.
    - intros _ o Ho. apply elem_of_cons in Ho as [->|Ho]; [done|].
      by apply list_elem_of_singleton in Ho as ->. }
  split.
  { intros k. pose proof (produced_le env k). lia. }
  intros k Hall. by rewrite produced_all.
Qed.

(** ** Further properties: the registry and the ledger *)

Lemma pretty_key_ne (U V : Z) : V ≠ U → pretty V ≠ pretty U.
Proof. intros Hne Heq. by apply Hne, (inj pretty). Qed.

(** X1.  After the admin sets the status of a user, the status read
    for that user is the one set, every other record and both other
    stores are as before, a name and a first request date already
    recorded are kept, and a later decision replaces the earlier
    one. *)
Theorem setUserStatus_then_read (U : Z) (s s2 : user_status) (now now2 : Date)
    (st : store) :
  let st' := setUserStatus (JS.IdStr (pretty U)) s now st in
  getUserStatus (JS.IdNum U) st' = Some s ∧
  (∀ k, k ≠ pretty U → users st' !! k = users st !! k) ∧
  (∀ V, V ≠ U → getUserStatus (JS.IdNum V) st' = getUserStatus (JS.IdNum V) st) ∧
  usage st' = usage st ∧ sessions st' = sessions st ∧
  (∀ r, users st !! pretty U = Some r →
        users st' !! pretty U =
        Some {| status := s; username := username r;
                requestedAt := if JS.truthy_opt (requestedAt r) then requestedAt r
                               else Some (toISOString now) |}) ∧
  (users st !! pretty U = None →
   users st' !! pretty U =
   Some {| status := s; username := None; requestedAt := Some (toISOString now) |}) ∧
  getUserStatus (JS.IdNum U) (setUserStatus (JS.IdStr (pretty U)) s2 now2 st') = Some s2.
Proof.
  intros st'. unfold st', setUserStatus, getUserStatus.
  cbn [users usage sessions writeUsers JS.String_].
  rewrite !lookup_insert_eq. split; [done|].
  split; [intros k Hk; by rewrite lookup_insert_ne|].
  split.
  { intros V HV. rewrite lookup_insert_ne; [done|]. by apply not_eq_sym, pretty_key_ne. }
  do 2 (split; [done|]).
  split; [by intros r ->|]. split; [by intros ->|]. done.
Qed.

Lemma count_at_today U now st :
  getUsageCount U now st = count_at (todayStr now) (JS.String_ U) st.
Proof.
  unfold getUsageCount, count_at. by destruct (usage st !! todayStr now).
Qed.

Lemma count_at_addUsage U add now st d u :
  count_at d u (addUsage U add now st) =
  if decide (d = todayStr now ∧ u = JS.String_ U)
  then count_at d u st + add else count_at d u st.
Proof.
  unfold count_at, addUsage. cbn [usage writeUsage].
  destruct (decide (d = todayStr now)) as [->|Hd].
  - rewrite lookup_insert_eq. cbn [mbind option_bind].
    destruct (decide (u = JS.String_ U)) as [->|Hu].
    + rewrite lookup_insert_eq, decide_True by done.
      by destruct (usage st !! todayStr now).
    + rewrite lookup_insert_ne by done. rewrite decide_False by (by intros [_ ?]).
      destruct (usage st !! todayStr now); cbn; [done|]. reflexivity.
  - rewrite lookup_insert_ne by done. rewrite decide_False by (by intros [? _]). done.
Qed.

(** X2.  [addUsage] adds its amount to the count of one user on the
    day of the clock and to nothing else: the count read back that day
    is larger by the amount, every other user and every other day
    reads as before, the registry and the sessions are untouched, and
    two additions on one day amount to one addition of the sum. *)
Theorem addUsage_ledger (U : JS.id) (a b : Z) (now : Date) (st : store) :
  getUsageCount U now (addUsage U a now st) = getUsageCount U now st + a ∧
  (∀ V later, (JS.String_ V ≠ JS.String_ U ∨ todayStr later ≠ todayStr now) →
     getUsageCount V later (addUsage U a now st) = getUsageCount V later st) ∧
  users (addUsage U a now st) = users st ∧
  sessions (addUsage U a now st) = sessions st ∧
  addUsage U b now (addUsage U a now st) = addUsage U (a + b) now st.
Proof.
  split; [|split; [|split; [done|split; [done|]]]].
  - rewrite !count_at_today, count_at_addUsage. by rewrite decide_True.
  - intros V later Hne. rewrite !count_at_today, count_at_addUsage.
    rewrite decide_False; [done|]. intros [? ?]. destruct Hne; congruence.
  - unfold addUsage. cbn [usage users sessions writeUsage].
    rewrite lookup_insert_eq. cbn [default from_option]. unfold id.
    rewrite lookup_insert_eq. cbn [from_option].
    rewrite !insert_insert_eq. by rewrite Z.add_assoc.
Qed.

(** X3.  No update ever lowers a count of the ledger: for every day and
    user, the count after a handler has run is at least the count
    before. *)
Theorem usage_never_decreases (e : event) (st : store) (d u : string) :
  count_at d u st ≤ count_at d u (fst (handle e st)).
Proof.
  destruct e as [c|data from now|c text|c clock|c text fetched|c k k' env|c from photo file now].
  6: { cbn [handle].
       destruct (generate_cases c k k' env st) as [->|(s & _ & _ & ->)]; [done|].
       unfold after_batch.
       assert (Hs : ∀ x, count_at d u (set_sessions (delete c (sessions x)) x) = count_at d u x)
         by done.
       rewrite Hs, count_at_addUsage. case_decide; lia. }
  all: unfold count_at; rewrite handle_keeps_usage by done; done.
Qed.

(** ** Further properties: day keys and backend answers *)

Lemma append_cons c a b : String c a +:+ b = String c (a +:+ b).
Proof. reflexivity. Qed.

Lemma append_length a b : String.length (a +:+ b) = (String.length a + String.length b)%nat.
Proof.
  induction a as [|c a IH]; [done|]. rewrite append_cons. cbn [String.length].
  by rewrite IH.
Qed.

Lemma append_inj_suffix a b s t :
  String.length s = String.length t → a +:+ s = b +:+ t → a = b ∧ s = t.
Proof.
  intros Hlen. revert b. induction a as [|c a IH]; intros [|c' b] Heq.
  - done.
  - exfalso. change (s = String c' (b +:+ t)) in Heq. subst s.
    cbn [String.length] in Hlen. rewrite append_length in Hlen. lia.
  - exfalso. change (String c (a +:+ s) = t) in Heq. subst t.
    cbn [String.length] in Hlen. rewrite append_length in Hlen. lia.
  - rewrite !append_cons in Heq. injection Heq as -> Heq.
    destruct (IH b Heq) as [-> ->]. done.
Qed.

Lemma two_digits_small (a b : Z) :
  0 ≤ a ≤ 31 → 0 ≤ b ≤ 31 →
  String.length (JS.padStart 2 "0" (pretty a)) = 2%nat ∧
  (JS.padStart 2 "0" (pretty a) = JS.padStart 2 "0" (pretty b) → a = b).
Proof.
  intros Ha Hb.
  pose (pad := λ i : nat, JS.padStart 2 "0" (pretty (Z.of_nat i))).
  assert (Hall : forallb (λ i, (String.length (pad i) =? 2)%nat &&
                               forallb (λ j, implb (String.eqb (pad i) (pad j)) (i =? j)%nat)
                                 (seq 0 32)) (seq 0 32) = true)
    by (vm_compute; reflexivity).
  rewrite forallb_forall in Hall.
  assert (Hin : ∀ x, 0 ≤ x ≤ 31 → In (Z.to_nat x) (seq 0 32)).
  { intros x Hx. apply in_seq. lia. }
  specialize (Hall _ (Hin a Ha)). apply andb_true_iff in Hall as [Hlen Hinj].
  unfold pad in Hlen, Hinj. rewrite Z2Nat.id in Hlen, Hinj by lia.
  split; [by apply Nat.eqb_eq|].
  intros Heq. rewrite forallb_forall in Hinj. specialize (Hinj _ (Hin b Hb)).
  rewrite Z2Nat.id in Hinj by lia. rewrite Heq, String.eqb_refl in Hinj.
  cbn in Hinj. apply Nat.eqb_eq in Hinj. lia.
Qed.

(** X4.  The day key is [YYYY-MM-DD] with two digits for the month and
    for the day, and two dates with the same key have the same UTC
    year, month and day: different days never share a count. *)
Theorem todayStr_injective (d1 d2 : Date) :
  0 ≤ getUTCMonth d1 ≤ 11 → 1 ≤ getUTCDate d1 ≤ 31 →
  0 ≤ getUTCMonth d2 ≤ 11 → 1 ≤ getUTCDate d2 ≤ 31 →
  String.length (todayStr d1) =
    (String.length (pretty (getUTCFullYear d1)) + 6)%nat ∧
  (todayStr d1 = todayStr d2 →
   getUTCFullYear d1 = getUTCFullYear d2 ∧
   getUTCMonth d1 = getUTCMonth d2 ∧
   getUTCDate d1 = getUTCDate d2).
Proof.
  intros Hm1 Hd1 Hm2 Hd2. unfold todayStr.
  destruct (two_digits_small (getUTCMonth d1 + 1) (getUTCMonth d2 + 1)) as [Lm1 Im]; [lia..|].
  destruct (two_digits_small (getUTCMonth d2 + 1) (getUTCMonth d1 + 1)) as [Lm2 _]; [lia..|].
  destruct (two_digits_small (getUTCDate d1) (getUTCDate d2)) as [Ld1 Id]; [lia..|].
  destruct (two_digits_small (getUTCDate d2) (getUTCDate d1)) as [Ld2 _]; [lia..|].
  split.
  { rewrite !append_length, Lm1, Ld1. cbn [String.length]. lia. }
  intros Heq.
  apply append_inj_suffix in Heq as [Hy Heq].
  2: { rewrite !append_length, Lm1, Lm2, Ld1, Ld2. done. }
  apply (inj pretty) in Hy. split; [done|].
  apply append_inj_suffix in Heq as [_ Heq].
  2: { rewrite !append_length, Lm1, Lm2, Ld1, Ld2. done. }
  apply append_inj_suffix in Heq as [HM Heq].
  2: { rewrite !append_length, Ld1, Ld2. done. }
  apply append_inj_suffix in Heq as [_ HD]; [|by rewrite Ld1, Ld2].
  split; [apply Im in HM; lia|by apply Id].
Qed.

(** X5.  The URL taken from an answer of the backend is the first
    truthy one among [data.image_url], [data[0].url] and
    [output[0].url], in this order, and [null] when none is truthy: a
    falsy value other than [null] (an empty string, 0, false) is
    never handed on. *)
Theorem find_url_first_truthy (wres : JS.json) :
  let a := JS.get (JS.get (Some wres) "data") "image_url" in
  let b := JS.get (JS.get0 (JS.get (Some wres) "data")) "url" in
  let c := JS.get (JS.get0 (JS.get (Some wres) "output")) "url" in
  (JS.truthy_value a = true → Some (find_url wres) = a) ∧
  (JS.truthy_value a = false → JS.truthy_value b = true → Some (find_url wres) = b) ∧
  (JS.truthy_value a = false → JS.truthy_value b = false → JS.truthy_value c = true →
   Some (find_url wres) = c) ∧
  (JS.truthy_value a = false → JS.truthy_value b = false → JS.truthy_value c = false →
   find_url wres = JS.JNull) ∧
  (JS.truthy_json (find_url wres) = false → find_url wres = JS.JNull).
Proof.
  intros a b c. unfold find_url. fold a b c. clearbody a b c.
  unfold JS.or_value.
  destruct a as [ja|], b as [jb|], c as [jc|]; cbn;
    repeat match goal with
           | |- context [JS.truthy_json ?j] => destruct (JS.truthy_json j) eqn:?; cbn
           end;
    repeat split; intros; congruence.
Qed.

(** ** Further properties: splitting, and the buttons *)

Lemma split_nonempty sep s : JS.split sep s ≠ [].
Proof.
  destruct s as [|c r]; cbn; [done|].
  destruct (Ascii.eqb c sep); [done|]. by destruct (JS.split sep r).
Qed.

Lemma join_cons sep x l :
  l ≠ [] → JS.join sep (x :: l) = x +:+ sep +:+ JS.join sep l.
Proof. by destruct l. Qed.

Lemma join_of_split (sep : ascii) (s : string) :
  JS.join (String sep EmptyString) (JS.split sep s) = s.
Proof.
  induction s as [|c r IH]; [done|]. cbn [JS.split].
  destruct (Ascii.eqb_spec c sep) as [->|Hne].
  - rewrite join_cons by apply split_nonempty. by rewrite IH.
  - destruct (JS.split sep r) as [|x xs] eqn:E; [by destruct (split_nonempty sep r)|].
    destruct xs as [|y xs].
    + cbn in IH |- *. by rewrite IH.
    + rewrite join_cons in IH |- * by done. rewrite append_cons. by rewrite <- IH.
Qed.

Lemma split_no_sep sep s : has_char sep s = false → JS.split sep s = [s].
Proof.
  induction s as [|c r IH]; [done|]. cbn.
  destruct (Ascii.eqb c sep); [done|]. cbn. intros Hr. by rewrite IH.
Qed.

Lemma split_first sep a s :
  has_char sep a = false →
  JS.split sep (a +:+ String sep s) = a :: JS.split sep s.
Proof.
  induction a as [|c a IH].
  - intros _. change (JS.split sep (String sep s) = "" :: JS.split sep s).
    cbn. by rewrite Ascii.eqb_refl.
  - cbn [has_char]. rewrite append_cons. cbn [JS.split].
    destruct (Ascii.eqb c sep); [done|]. cbn. intros Ha. by rewrite IH.
Qed.

(** X6.  Splitting a string at a separator and joining the pieces with
    the separator gives the string back; and joining pieces that do
    not hold the separator and splitting the result gives the pieces
    back. *)
Theorem join_split (sep : ascii) (s : string) (l : list string) :
  JS.join (String sep EmptyString) (JS.split sep s) = s ∧
  (l ≠ [] → Forall (λ x, has_char sep x = false) l →
   JS.split sep (JS.join (String sep EmptyString) l) = l).
Proof.
  split; [apply join_of_split|].
  induction l as [|x l IH]; [done|]. intros _ Hall.
  apply Forall_cons in Hall as [Hx Hl].
  destruct l as [|y l].
  - cbn. by apply split_no_sep.
  - rewrite join_cons by done.
    change (x +:+ String sep "" +:+ JS.join (String sep "") (y :: l))
      with (x +:+ String sep ("" +:+ JS.join (String sep "") (y :: l))).
    rewrite split_first by done. change ("" +:+ ?t) with t. by rewrite IH.
Qed.

Lemma pretty_N_go_chars c x s :
  (∀ n, pretty_N_char n ≠ c) →
  has_char c (pretty_N_go x s) = has_char c s.
Proof.
  intros Hc. revert s. induction (N.lt_wf_0 x) as [x _ IH]; intros s.
  destruct (decide (x = 0%N)) as [->|Hx]; [by rewrite pretty_N_go_0|].
  rewrite pretty_N_go_step by lia. rewrite IH by (apply N.div_lt; lia).
  cbn [has_char]. destruct (Ascii.eqb_spec (pretty_N_char (x `mod` 10)) c) as [Heq|]; [|done].
  by destruct (Hc _ Heq).
Qed.

(** A chat id written in decimal holds only digits and the minus sign. *)
Lemma pretty_Z_chars c (z : Z) :
  (∀ n, pretty_N_char n ≠ c) → c ≠ "-"%char → has_char c (pretty z) = false.
Proof.
  intros Hc Hdash.
  assert (HN : ∀ n : N, has_char c (pretty n) = false).
  { intros n. unfold pretty, pretty_N. case_decide.
    - cbn [has_char]. destruct (Ascii.eqb_spec "0"%char c) as [Heq|]; [|done].
      by destruct (Hc 0%N).
    - by rewrite pretty_N_go_chars. }
  destruct z as [|p|p]; unfold pretty, pretty_Z.
  - apply (HN 0%N).
  - apply (HN (Npos p)).
  - change ("-" +:+ pretty p) with (String "-" (pretty (Npos p))). cbn [has_char].
    rewrite (HN (Npos p)). by destruct (Ascii.eqb_spec "-"%char c).
Qed.

Lemma pretty_Z_no_underscore (z : Z) : has_char "_" (pretty z) = false.
Proof.
  apply pretty_Z_chars; [|done]. intros n. unfold pretty_N_char.
  by repeat case_match.
Qed.

Lemma startsWith_truthy p c d : JS.startsWith (String c p) d = true → JS.truthy d = true.
Proof. by destruct d. Qed.

(** X7.  A press of [Request Access] registers the presser, whatever id
    the button data carries: the presser gets a pending record when
    they have none, an existing record (pending, approved or denied)
    is left as it is, no other record, count or session changes, and
    the admin is sent the Approve and Deny buttons for the presser. *)
Theorem request_registers_presser (data : string) (from : sender) (now : Date)
    (st : store) :
  JS.startsWith "request_" data = true →
  let st' := fst (callback_query (Some data) from now st) in
  let k := pretty (from_id from) in
  (users st !! k = None →
   ∃ r, users st' !! k = Some r ∧ status r = pending ∧
        requestedAt r = Some (toISOString now)) ∧
  (is_Some (users st !! k) → st' = st) ∧
  (∀ k', k' ≠ k → users st' !! k' = users st !! k') ∧
  usage st' = usage st ∧ sessions st' = sessions st ∧
  ∃ text,
    snd (callback_query (Some data) from now st) =
    [AnswerCbQuery (Some "Access request sent to admin.");
     Reply "✅ Request sent. You'll be notified when approved.";
     SendMessage (JS.IdStr ADMIN_ID) text
       [("✅ Approve", "approve_" +:+ k); ("🚫 Deny", "deny_" +:+ k)]].
Proof.
  intros Hreq st' k. unfold st', callback_query.
  rewrite Hreq, (startsWith_truthy _ _ _ Hreq). cbn [andb fst snd].
  unfold ensureUserPending. cbn [JS.String_]. fold k.
  destruct (users st !! k) as [r|] eqn:Hk; cbn [snd users usage sessions writeUsers].
  - split; [done|]. split; [done|]. split; [done|]. split; [done|]. split; [done|].
    eexists. reflexivity.
  - split. { intros _. eexists. rewrite lookup_insert_eq. done. }
    split; [by intros [? ?]|].
    split. { intros k' Hk'. by rewrite lookup_insert_ne. }
    split; [done|]. split; [done|]. eexists. reflexivity.
Qed.

Lemma button_target (tag : string) (U : Z) :
  has_char "_" tag = false →
  JS.index (JS.split "_" (tag +:+ String "_" (pretty U))) 1 = JS.IdStr (pretty U).
Proof.
  intros Htag. rewrite split_first by done.
  rewrite split_no_sep by apply pretty_Z_no_underscore. reflexivity.
Qed.

Lemma press_approve (U : Z) from now st :
  is_admin from = true →
  callback_query (Some ("approve_" +:+ pretty U)) from now st =
    (setUserStatus (JS.IdStr (pretty U)) approved now st,
     [AnswerCbQuery (Some "User approved.");
      SendMessage (JS.IdStr (pretty U))
        "✅ You have been approved! You can now use /model and /generate." [];
      EditMessageText ("Approved user " +:+ pretty U)]).
Proof.
  intros Hadm. unfold callback_query. rewrite Hadm.
  change ("approve_" +:+ pretty U) with ("approve" +:+ String "_" (pretty U)).
  rewrite button_target by done. reflexivity.
Qed.

Lemma press_deny (U : Z) from now st :
  is_admin from = true →
  callback_query (Some ("deny_" +:+ pretty U)) from now st =
    (setUserStatus (JS.IdStr (pretty U)) denied now st,
     [AnswerCbQuery (Some "User denied.");
      SendMessage (JS.IdStr (pretty U))
        "🚫 Your access request was denied by the admin." [];
      EditMessageText ("Denied user " +:+ pretty U)]).
Proof.
  intros Hadm. unfold callback_query. rewrite Hadm.
  change ("deny_" +:+ pretty U) with ("deny" +:+ String "_" (pretty U)).
  rewrite button_target by done. reflexivity.
Qed.

Lemma status_after_set (U : Z) s now st :
  getUserStatus (JS.IdNum U) (setUserStatus (JS.IdStr (pretty U)) s now st) = Some s.
Proof.
  unfold getUserStatus, setUserStatus. cbn [users writeUsers JS.String_].
  by rewrite lookup_insert_eq.
Qed.

(** X8.  The Approve and Deny buttons the bot makes for a user (data
    [approve_] or [deny_] followed by the decimal chat id, negative ids
    included), pressed by the admin, set the status of exactly that
    user, tell that user, and edit the admin message. *)
Theorem admin_button_decides (U : Z) (from : sender) (now : Date) (st : store) :
  is_admin from = true →
  callback_query (Some ("approve_" +:+ pretty U)) from now st =
    (setUserStatus (JS.IdStr (pretty U)) approved now st,
     [AnswerCbQuery (Some "User approved.");
      SendMessage (JS.IdStr (pretty U))
        "✅ You have been approved! You can now use /model and /generate." [];
      EditMessageText ("Approved user " +:+ pretty U)]) ∧
  callback_query (Some ("deny_" +:+ pretty U)) from now st =
    (setUserStatus (JS.IdStr (pretty U)) denied now st,
     [AnswerCbQuery (Some "User denied.");
      SendMessage (JS.IdStr (pretty U))
        "🚫 Your access request was denied by the admin." [];
      EditMessageText ("Denied user " +:+ pretty U)]) ∧
  getUserStatus (JS.IdNum U)
    (fst (callback_query (Some ("approve_" +:+ pretty U)) from now st)) = Some approved ∧
  getUserStatus (JS.IdNum U)
    (fst (callback_query (Some ("deny_" +:+ pretty U)) from now st)) = Some denied ∧
  (∀ V, V ≠ U →
     getUserStatus (JS.IdNum V)
       (fst (callback_query (Some ("approve_" +:+ pretty U)) from now st)) =
     getUserStatus (JS.IdNum V) st).
Proof.
  intros Hadm. rewrite (press_approve U from now st Hadm), (press_deny U from now st Hadm).
  cbn [fst]. rewrite !status_after_set. do 4 (split; [done|]).
  intros V HV. unfold getUserStatus, setUserStatus. cbn [users writeUsers JS.String_].
  rewrite lookup_insert_ne; [done|]. by apply not_eq_sym, pretty_key_ne.
Qed.

(** ** Further properties: who can change what *)

(** The store a handler leaves is the store it found, or that store
    with a pending record added, a status set by the admin, a session
    written for an approved chat, or a batch accounted. *)
Lemma handle_store_cases e st :
  fst (handle e st) = st ∨
  (∃ c name now, fst (handle e st) = snd (ensureUserPending (JS.IdNum c) name now st)) ∨
  (admin_decision e = true ∧
   ∃ cid s now, fst (handle e st) = setUserStatus cid s now st) ∨
  (∃ c s', chat_of e = Some c ∧ getUserStatus (JS.IdNum c) st = Some approved ∧
           fst (handle e st) = set_sessions (<[c := s']> (sessions st)) st) ∨
  (∃ c s clock', chat_of e = Some c ∧ ready c s st ∧
                 fst (handle e st) = after_batch c s clock' st).
Proof.
  destruct e as [c|data from now|c text|c clock|c text fetched|c k k' env|c from photo file now];
    cbn [handle].
  - by left.
  - unfold callback_query, admin_decision. destruct data as [d|]; [|by left].
    destruct (JS.truthy d); cbn [andb]; [|by left].
    destruct (JS.startsWith "request_" d); [right; left; by eauto|].
    destruct (JS.startsWith "approve_" d); cbn [andb orb].
    { destruct (is_admin from); [right; right; left; by eauto|].
      destruct (JS.startsWith "deny_" d); by left. }
    destruct (JS.startsWith "deny_" d); cbn [andb]; [|by left].
    destruct (is_admin from); [right; right; left; by eauto|by left].
  - unfold model. destruct (negb _); [by left|].
    destruct (not_approved _) eqn:Ea; [by left|].
    apply not_approved_approved in Ea. do 3 right. left. by eauto.
  - by left.
  - unfold fetch_instagram. destruct (not_approved _) eqn:Ea; [by left|].
    apply not_approved_approved in Ea.
    destruct (negb _); [by left|]. destruct fetched as [imgs|m]; [|by left].
    destruct (_ =? _)%nat; [by left|]. do 3 right. left. by eauto.
  - destruct (generate_cases c k k' env st) as [->|(s & Hr & _ & ->)]; [by left|].
    do 4 right. by exists c, s, k'.
  - unfold message. destruct photo as [sizes|]; [|by left].
    destruct (_ =? _)%nat; [by left|].
    destruct (not_approved _) eqn:Ea; [right; left; by eauto|].
    apply not_approved_approved in Ea.
    destruct file as [fp|m]; [|by left].
    destruct (is_base _); do 3 right; left; by eauto.
Qed.

Lemma ensureUserPending_users c name now st k :
  users (snd (ensureUserPending c name now st)) !! k = users st !! k ∨
  (users st !! k = None ∧
   ∃ r, users (snd (ensureUserPending c name now st)) !! k = Some r ∧ status r = pending).
Proof.
  unfold ensureUserPending. destruct (users st !! JS.String_ c) eqn:Hc; [by left|].
  cbn [snd users writeUsers].
  destruct (decide (k = JS.String_ c)) as [->|Hk].
  - right. split; [done|]. rewrite lookup_insert_eq. by eauto.
  - left. by rewrite lookup_insert_ne.
Qed.

(** X9.  Only a decision of the admin changes a status.  After any
    other update, every record of the registry is a record that was
    there before, unchanged, or a new record with status pending; so no
    user becomes approved, and no denied user stops being denied,
    without the admin. *)
Theorem status_needs_admin (e : event) (st : store) (k : string) (r : user_record) :
  admin_decision e = false →
  users (fst (handle e st)) !! k = Some r →
  users st !! k = Some r ∨ (users st !! k = None ∧ status r = pending).
Proof.
  intros Hadm Hr.
  destruct (handle_store_cases e st)
    as [Heq|[(c & name & now & Heq)|[[Habs (cid & s & now & Heq)]|[(c & s' & _ & _ & Heq)|(c & s & cl & _ & _ & Heq)]]]];
    rewrite Heq in Hr.
  - by left.
  - destruct (ensureUserPending_users (JS.IdNum c) name now st k) as [Hk|(Hk & r' & Hr' & Hp)].
    + left. by rewrite <- Hk.
    + right. split; [done|]. congruence.
  - congruence.
  - by left.
  - by left.
Qed.

(** X10.  A handler changes no session but the one of the chat its
    update comes from, and changes that one only when the chat is
    approved; a button press changes no session at all. *)
Theorem sessions_are_separate (e : event) (st : store) (c : Z) :
  sessions (fst (handle e st)) !! c ≠ sessions st !! c →
  chat_of e = Some c ∧ getUserStatus (JS.IdNum c) st = Some approved.
Proof.
  intros Hne.
  destruct (handle_store_cases e st)
    as [Heq|[(c' & name & now & Heq)|[[_ (cid & s & now & Heq)]|[(c' & s' & Hc & Ha & Heq)|(c' & s & cl & Hc & Hr & Heq)]]]];
    rewrite Heq in Hne.
  - done.
  - destruct Hne. unfold ensureUserPending. by destruct (users st !! _).
  - done.
  - cbn in Hne. destruct (decide (c' = c)) as [->|Hcc]; [done|].
    by rewrite lookup_insert_ne in Hne.
  - unfold after_batch in Hne. cbn in Hne.
    destruct (decide (c' = c)) as [->|Hcc]; [by destruct Hr|].
    by rewrite lookup_delete_ne in Hne.
Qed.

Lemma handle_keeps_records e st k :
  is_Some (users st !! k) → is_Some (users (fst (handle e st)) !! k).
Proof.
  intros Hk.
  destruct (handle_store_cases e st)
    as [Heq|[(c & name & now & Heq)|[[_ (cid & s & now & Heq)]|[(c & s' & _ & _ & Heq)|(c & s & cl & _ & _ & Heq)]]]];
    rewrite Heq; try done.
  - unfold ensureUserPending. destruct (users st !! JS.String_ (JS.IdNum c)); [done|].
    cbn [snd users writeUsers]. destruct (decide (k = JS.String_ (JS.IdNum c))) as [->|];
      [by rewrite lookup_insert_eq|by rewrite lookup_insert_ne].
  - unfold setUserStatus. cbn [users writeUsers].
    destruct (decide (k = JS.String_ cid)) as [->|];
      [by rewrite lookup_insert_eq|by rewrite lookup_insert_ne].
Qed.

(** X11.  The registry only grows: a user who has a record keeps one
    through any run of updates, whatever the admin decides. *)
Theorem records_are_kept (evs : list event) (st : store) (k : string) :
  is_Some (users st !! k) → is_Some (users (run evs st) !! k).
Proof.
  revert st. induction evs as [|e evs IH]; intros st Hk; [done|].
  cbn [run foldl]. apply IH. by apply handle_keeps_records.
Qed.

Lemma handle_all_registered e st : all_registered st → all_registered (fst (handle e st)).
Proof.
  intros [Hs Hu].
  assert (Hkeep := handle_keeps_records e st).
  destruct (handle_store_cases e st)
    as [Heq|[(c & name & now & Heq)|[[_ (cid & s & now & Heq)]|[(c & s' & _ & Ha & Heq)|(c & s & cl & _ & Hr & Heq)]]]];
    rewrite Heq in Hkeep |- *.
  - done.
  - split.
    + intros c' Hc'. apply Hkeep, Hs. revert Hc'. unfold ensureUserPending.
      by destruct (users st !! _).
    + intros d m u Hd Hm. apply Hkeep, (Hu d m u); [|done]. revert Hd.
      unfold ensureUserPending. by destruct (users st !! _).
  - split.
    + intros c' Hc'. by apply Hkeep, Hs.
    + intros d m u Hd Hm. by apply Hkeep, (Hu d m u).
  - split.
    + intros c' Hc'. cbn [users sessions set_sessions] in *.
      destruct (decide (c = c')) as [<-|Hcc].
      * unfold getUserStatus in Ha. cbn [JS.String_] in Ha.
        by destruct (users st !! pretty c).
      * rewrite lookup_insert_ne in Hc' by done. by apply Hs.
    + intros d m u Hd Hm. by apply (Hu d m u).
  - assert (Hc : is_Some (users st !! pretty c)).
    { destruct Hr as [Ha _]. unfold getUserStatus in Ha. cbn [JS.String_] in Ha.
      by destruct (users st !! pretty c). }
    unfold all_registered.
    change (users (after_batch c s cl st)) with (users st).
    change (sessions (after_batch c s cl st)) with (delete c (sessions st)).
    change (usage (after_batch c s cl st))
      with (<[todayStr cl :=
                <[pretty c := default 0 (default ∅ (usage st !! todayStr cl) !! pretty c) +
                              Z.of_nat (plan_total s)]>
                  (default ∅ (usage st !! todayStr cl))]> (usage st)).
    split.
    + intros c' Hc'. apply Hs. destruct (decide (c = c')) as [<-|Hcc].
      * by rewrite lookup_delete_eq in Hc'; destruct Hc'.
      * by rewrite lookup_delete_ne in Hc'.
    + intros d m u Hd Hm.
      destruct (decide (d = todayStr cl)) as [->|Hdd].
      * rewrite lookup_insert_eq in Hd. injection Hd as <-.
        destruct (decide (u = pretty c)) as [->|Huu]; [done|].
        rewrite lookup_insert_ne in Hm by done.
        destruct (usage st !! todayStr cl) as [day|] eqn:Hday; cbn in Hm.
        -- by apply (Hu (todayStr cl) day u).
        -- rewrite lookup_empty in Hm. by destruct Hm.
      * rewrite lookup_insert_ne in Hd by done. by apply (Hu d m u).
Qed.

(** X12.  In every store reached from the empty stores, a chat that has
    a session and a user that has a count in the ledger have a record
    in the registry: sessions and usage exist only for users the admin
    has approved at some time. *)
Theorem sessions_and_usage_registered (evs : list event) :
  all_registered (run evs empty_store).
Proof.
  assert (Hgen : ∀ st, all_registered st → all_registered (run evs st)).
  { induction evs as [|e evs IH]; intros st Hst; [done|].
    cbn [run foldl]. apply IH. by apply handle_all_registered. }
  apply Hgen. split.
  - intros c [s Hs]. cbn in Hs. by rewrite lookup_empty in Hs.
  - intros d m u Hd. cbn in Hd. by rewrite lookup_empty in Hd.
Qed.

(** ** Further properties: the gate of approval *)

Lemma not_approved_other o : o ≠ Some approved → not_approved o = true.
Proof. destruct o as [[]|]; done. Qed.

(** X13.  While the admin takes no decision nothing can be generated:
    after any run of updates from the empty stores that holds no
    Approve or Deny press by the admin, every record is pending, no
    session exists and the ledger is empty. *)
Theorem nothing_without_approval (evs : list event) :
  forallb (λ e, negb (admin_decision e)) evs = true →
  (∀ k r, users (run evs empty_store) !! k = Some r → status r = pending) ∧
  usage (run evs empty_store) = ∅ ∧
  sessions (run evs empty_store) = ∅.
Proof.
  assert (Hgen : ∀ st,
    forallb (λ e, negb (admin_decision e)) evs = true →
    (∀ k r, users st !! k = Some r → status r = pending) ∧ usage st = ∅ ∧ sessions st = ∅ →
    (∀ k r, users (run evs st) !! k = Some r → status r = pending) ∧
    usage (run evs st) = ∅ ∧ sessions (run evs st) = ∅).
  { induction evs as [|e evs IH]; intros st Hall Hst; [done|].
    cbn [forallb] in Hall. apply andb_true_iff in Hall as [He Hall].
    apply negb_true_iff in He. cbn [run foldl]. apply IH; [done|].
    destruct Hst as (Hp & Hu & Hs).
    assert (Hno : ∀ c, getUserStatus (JS.IdNum c) st ≠ Some approved).
    { intros c. unfold getUserStatus.
      destruct (users st !! JS.String_ (JS.IdNum c)) as [r|] eqn:Hr; [|done].
      by rewrite (Hp _ _ Hr). }
    destruct (handle_store_cases e st)
      as [Heq|[(c & name & now & Heq)|[[Habs _]|[(c & s' & _ & Ha & _)|(c & s & cl & _ & Hr & _)]]]].
    - by rewrite Heq.
    - rewrite Heq. split.
      + intros k r Hr.
        destruct (ensureUserPending_users (JS.IdNum c) name now st k) as [Hk|(_ & r' & Hr' & Hpen)].
        * apply (Hp k). by rewrite <- Hk.
        * congruence.
      + unfold ensureUserPending. by destruct (users st !! _).
    - congruence.
    - by destruct (Hno c).
    - destruct Hr as [Ha _]. by destruct (Hno c). }
  intros Hall. apply Hgen; [done|]. split; [|done].
  intros k r Hr. cbn in Hr. by rewrite lookup_empty in Hr.
Qed.

(** X14.  For a chat that is not approved, [/model], [/fetch_instagram]
    and [/generate] change nothing, and a photo changes neither the
    sessions nor the ledger: it only gives the sender a pending record
    when they have none, and leaves a record they have as it is.  None
    of the four reaches the backend, the fetcher or the file
    service. *)
Theorem gated_without_approval (c : Z) (st : store) :
  getUserStatus (JS.IdNum c) st ≠ Some approved →
  (∀ text, fst (model c text st) = st ∧
           (snd (model c text st) = [Reply msg_model_usage] ∨
            snd (model c text st) = [Reply msg_model_locked])) ∧
  (∀ text fetched, fetch_instagram c text fetched st = (st, [Reply msg_not_approved])) ∧
  (∀ clock clock' env, generate c clock clock' env st = (st, [Reply msg_not_approved])) ∧
  (∀ from sizes file now,
     sizes ≠ [] →
     let st' := fst (message c from (Some sizes) file now st) in
     sessions st' = sessions st ∧ usage st' = usage st ∧
     getUserStatus (JS.IdNum c) st' = Some (default pending (getUserStatus (JS.IdNum c) st)) ∧
     (∀ k, k ≠ pretty c → users st' !! k = users st !! k) ∧
     snd (message c from (Some sizes) file now st) =
     [Reply "🔒 You're not approved yet. Tap Request Access or wait for admin approval."]).
Proof.
  intros Hno. pose proof (not_approved_other _ Hno) as Hna.
  split; [|split; [|split]].
  - intros text. unfold model. destruct (negb _); [by auto|]. rewrite Hna. by auto.
  - intros text fetched. unfold fetch_instagram. by rewrite Hna.
  - intros clock clock' env. unfold generate. by rewrite Hna.
  - intros from sizes file now Hsizes st'. unfold st', message.
    destruct sizes as [|x sizes]; [done|]. cbn [length Nat.eqb]. rewrite Hna.
    cbn [fst snd]. unfold ensureUserPending, getUserStatus in *. cbn [JS.String_] in *.
    destruct (users st !! pretty c) as [r|] eqn:Hr; cbn [snd default from_option id].
    + rewrite Hr. done.
    + cbn [users usage sessions writeUsers]. rewrite lookup_insert_eq.
      do 3 (split; [done|]). split; [|done].
      intros k Hk. by rewrite lookup_insert_ne.
Qed.

Lemma model_argument_after cmd rest :
  has_char " " cmd = false → model_argument (cmd +:+ " " +:+ rest) = JS.trim rest.
Proof.
  intros Hcmd. unfold model_argument, JS.slice1.
  change (cmd +:+ " " +:+ rest) with (cmd +:+ String " " ("" +:+ rest)).
  rewrite split_first by done. change ("" +:+ rest) with rest.
  cbn [drop]. rewrite drop_0. by rewrite (join_of_split " " rest).
Qed.

(** X15.  [/model] followed by a space and a name sets the model name
    of an approved chat to the name with the white space at both ends
    removed, spaces inside the name kept as typed; the images already
    collected in the session stay, and no other store or session
    changes. *)
Theorem model_sets_name (c : Z) (cmd rest : string) (st : store) :
  has_char " " cmd = false →
  getUserStatus (JS.IdNum c) st = Some approved →
  JS.trim rest ≠ "" →
  let s := default empty_session (sessions st !! c) in
  let st' := fst (model c (cmd +:+ " " +:+ rest) st) in
  sessions st' !! c =
    Some {| modelName := Some (JS.trim rest); baseImages := baseImages s;
            refImages := refImages s; instagramHandles := instagramHandles s |} ∧
  (∀ c', c' ≠ c → sessions st' !! c' = sessions st !! c') ∧
  users st' = users st ∧ usage st' = usage st.
Proof.
  intros Hcmd Ha Hne s st'. unfold st', model.
  rewrite (model_argument_after _ _ Hcmd).
  assert (Ht : JS.truthy (JS.trim rest) = true).
  { unfold JS.truthy. by destruct (String.eqb_spec (JS.trim rest) ""). }
  rewrite Ht, (proj2 (not_approved_approved _) Ha). cbn [negb fst].
  cbn [sessions users usage set_sessions]. rewrite lookup_insert_eq.
  split; [done|]. split; [|done]. intros c' Hc'. by rewrite lookup_insert_ne.
Qed.

(** X16.  A batch uses up its session: right after a batch that went
    through, another [/generate] from the same chat is turned down for
    want of a model name and changes nothing, whatever the clock and
    the backend. *)
Theorem batch_uses_up_session (c : Z) (s : session) (clock clock' : Date)
    (env : backend) (st : store) :
  ready c s st →
  within_limit c s clock st →
  ∀ clock2 clock2' env2,
    generate c clock2 clock2' env2 (fst (generate c clock clock' env st)) =
    (fst (generate c clock clock' env st), [Reply msg_no_model]).
Proof.
  intros Hready Hlim clock2 clock2' env2.
  rewrite (generate_ready _ _ clock clock' env _ Hready). unfold within_limit in Hlim.
  destruct (Z.gtb_spec (getUsageCount (JS.IdNum c) clock st + Z.of_nat (plan_total s))
              DAILY_LIMIT) as [Hgt|_]; [lia|].
  cbn [fst]. unfold generate at 1.
  change (getUserStatus (JS.IdNum c) (after_batch c s clock' st))
    with (getUserStatus (JS.IdNum c) st).
  destruct Hready as [Ha _]. rewrite (proj2 (not_approved_approved _) Ha).
  change (sessions (after_batch c s clock' st)) with (delete c (sessions st)).
  by rewrite lookup_delete_eq.
Qed.



(** X18.  A denial by the admin blocks a chat without clearing its
    session: after the Deny press the session is still there and
    [/generate] is turned down as not approved; a later Approve press
    finds the session as it was, and a chat that could generate before
    the denial can generate again. *)
Theorem denial_keeps_session (U : Z) (s : session) (from : sender) (now now' : Date)
    (st : store) :
  is_admin from = true →
  ready U s st →
  let st1 := fst (callback_query (Some ("deny_" +:+ pretty U)) from now st) in
  let st2 := fst (callback_query (Some ("approve_" +:+ pretty U)) from now' st1) in
  sessions st1 = sessions st ∧ usage st1 = usage st ∧
  (∀ clock clock' env, generate U clock clock' env st1 = (st1, [Reply msg_not_approved])) ∧
  ready U s st2 ∧ usage st2 = usage st.
Proof.
  intros Hadm (Ha & Hs & Hrest) st1 st2. unfold st2, st1.
  rewrite (press_deny U from now st Hadm). cbn [fst].
  rewrite (press_approve U from now' _ Hadm). cbn [fst].
  split; [done|]. split; [done|]. split.
  { intros clock clock' env. unfold generate. by rewrite status_after_set. }
  split; [|done]. unfold ready. rewrite status_after_set. done.
Qed.

(** ** Further properties: the Instagram fetchers *)

Lemma apify_loop_result limit items :
  ∀ urls out,
    apify_loop limit items urls = Returns out →
    ∃ k, out = urls ++ take k (usable_images items) ∧
         (length out ≤ limit `max` (length urls + 1))%nat ∧
         ((length out < limit)%nat → out = urls ++ usable_images items).
Proof.
  induction items as [|it rest IH]; intros urls out Hout.
  - injection Hout as <-. exists 0%nat. cbn. rewrite app_nil_r.
    split; [done|]. split; [lia|done].
  - cbn [apply apify_loop] in Hout. unfold usable_images. cbn [omap list_omap].
    fold (usable_images rest).
    assert (Hnn : it ≠ JS.JNull) by (intros ->; discriminate Hout).
    assert (Hstep : (let urls' := if JS.truthy_value (item_image it)
                                  then urls ++ [default JS.JNull (item_image it)] else urls in
                     if (limit <=? length urls')%nat then Returns urls'
                     else apify_loop limit rest urls') = Returns out).
    { by destruct it. }
    clear Hout. cbv zeta in Hstep.
    destruct (JS.truthy_value (item_image it)) eqn:Et.
    + destruct (item_image it) as [j|] eqn:Ej; [|done]. cbn [default from_option id] in Hstep.
      unfold id in Hstep.
      destruct (Nat.leb_spec limit (length (urls ++ [j]))) as [Hle|Hgt].
      * injection Hstep as <-. exists 1%nat. cbn [take]. rewrite take_0.
        rewrite length_app in *. cbn [length] in *. split; [done|]. split; lia.
      * destruct (IH _ _ Hstep) as (k & -> & Hlen & Hall). exists (S k).
        rewrite <- !app_assoc in *. cbn [take app].
        split; [done|]. rewrite !length_app in *. cbn [length] in *.
        split; [lia|]. intros Hlt. apply Hall. lia.
    + destruct (Nat.leb_spec limit (length urls)) as [Hle|Hgt].
      * injection Hstep as <-. exists 0%nat. rewrite take_0, app_nil_r.
        split; [done|]. split; lia.
      * destruct (IH _ _ Hstep) as (k & -> & Hlen & Hall). exists k.
        split; [done|]. split; [lia|done].
Qed.

Lemma usable_images_truthy items :
  Forall (λ u, JS.truthy_json u = true) (usable_images items).
Proof.
  unfold usable_images. induction items as [|it rest IH]; [done|]. cbn.
  destruct (JS.truthy_value (item_image it)) eqn:Et; [|done].
  destruct (item_image it) as [j|]; [|done]. cbn. by constructor.
Qed.

(** X19.  The Apify fetcher refuses to run without a token.  When it
    returns, it returns images that are all truthy, at most [limit] of
    them when [limit] is at least 1 (one at most when [limit] is 0);
    they are the first usable images of the items, in the order of
    the items, and all of them when fewer than [limit] are returned. *)
Theorem apify_returns_first_images (token : option string) (limit : nat)
    (run items : outcome JS.json) :
  (JS.truthy_opt token = false →
   fetchInstagramImagesApify token limit run items = Throws "Apify token not configured") ∧
  (∀ out,
     fetchInstagramImagesApify token limit run items = Returns out →
     JS.truthy_opt token = true ∧
     Forall (λ u, JS.truthy_json u = true) out ∧
     (length out ≤ limit `max` 1)%nat ∧
     ∀ l, items = Returns (JS.JArr l) →
          out `prefix_of` usable_images l ∧
          ((length out < limit)%nat → out = usable_images l)).
Proof.
  split.
  { intros Ht. unfold fetchInstagramImagesApify. by rewrite Ht. }
  intros out Hout. unfold fetchInstagramImagesApify in Hout.
  destruct (JS.truthy_opt token); [|done]. cbn [negb] in Hout. split; [done|].
  destruct run as [runJson|m]; [|done].
  assert (Hitems : match items with
                   | Returns (JS.JArr l) => apify_loop limit l [] = Returns out
                   | Returns (JS.JStr _) => out = []
                   | _ => False
                   end).
  { destruct runJson; try done;
      (destruct (negb _); [done|]);
      destruct items as [[]|]; try done; by injection Hout. }
  clear Hout. destruct items as [[| | | |l|]|m]; try done.
  - subst out. split; [done|]. split; [cbn; lia|]. intros l [=].
  - destruct (apify_loop_result _ _ _ _ Hitems) as (k & -> & Hlen & Hall).
    cbn [app length] in *. split.
    { apply Forall_take, usable_images_truthy. }
    split; [lia|]. intros l' [= <-]. split; [|done].
    exists (drop k (usable_images l)). by rewrite take_drop.
Qed.

Lemma map_throwing_length {A B} (f : A → outcome B) l ys :
  map_throwing f l = Returns ys → length ys = length l.
Proof.
  revert ys. induction l as [|x l IH]; intros ys; cbn.
  - by intros [= <-].
  - destruct (f x); [|done]. destruct (map_throwing f l); [|done].
    intros [= <-]. cbn. by rewrite (IH _ eq_refl).
Qed.

(** X20.  The direct fetcher fails with its own message when the
    endpoint answers with an error status.  When it returns, it
    returns at most [limit] images, all truthy, taken from the first
    [limit] edges only. *)
Theorem direct_returns_bounded (limit : nat) (res : outcome (bool * outcome JS.json)) :
  (∀ j, res = Returns (false, j) →
        fetchInstagramDirect limit res = Throws "Instagram public endpoint blocked") ∧
  (∀ out,
     fetchInstagramDirect limit res = Returns out →
     (length out ≤ limit)%nat ∧
     Forall (λ u, JS.truthy_json u = true) out ∧
     ∃ j l, res = Returns (true, Returns j) ∧ timeline_edges j = Some (JS.JArr l) ∧
            (length out ≤ length l)%nat).
Proof.
  split; [by intros j ->|].
  intros out Hout. unfold fetchInstagramDirect in Hout.
  destruct res as [[[] [j|m]]|m]; try done.
  assert (Hj : (if negb (JS.truthy_value (timeline_edges j)) then Throws "No media found"
                else match timeline_edges j with
                     | Some (JS.JArr l) =>
                         match map_throwing edge_image (take limit l) with
                         | Throws m => Throws m
                         | Returns imgs =>
                             Returns (omap (λ v, if JS.truthy_value v then v else None) imgs)
                         end
                     | _ => Throws type_error
                     end) = Returns out).
  { by destruct j. }
  clear Hout. destruct (negb _); [done|].
  destruct (timeline_edges j) as [[| | | |l|]|] eqn:He; try done.
  destruct (map_throwing edge_image (take limit l)) as [imgs|m] eqn:Hm; [|done].
  injection Hj as <-. apply map_throwing_length in Hm. rewrite length_take in Hm.
  pose proof (omap_length_le (λ v : JS.value, if JS.truthy_value v then v else None) imgs).
  split; [lia|]. split.
  - clear. induction imgs as [|v imgs IH]; [done|]. cbn.
    destruct (JS.truthy_value v) eqn:Ev; [|done]. destruct v as [u|]; [|done].
    cbn. by constructor.
  - exists j, l. split; [done|]. split; [done|]. lia.
Qed.

(** ** Further properties: trimming *)

Lemma append_nil_r a : a +:+ "" = a.
Proof. induction a as [|c a IH]; [done|]. by rewrite append_cons, IH. Qed.

Lemma append_assoc a b c : (a +:+ b) +:+ c = a +:+ (b +:+ c).
Proof. induction a as [|x a IH]; [done|]. by rewrite !append_cons, IH. Qed.

Lemma rev_app_append s1 s2 : String.rev_app s1 s2 = String.rev s1 +:+ s2.
Proof.
  revert s2. induction s1 as [|a s1 IH]; intros s2; [done|].
  unfold String.rev. cbn [String.rev_app]. rewrite (IH (String a s2)), (IH (String a "")).
  by rewrite append_assoc.
Qed.

Lemma rev_cons c a : String.rev (String c a) = String.rev a +:+ String c "".
Proof. unfold String.rev at 1. cbn [String.rev_app]. apply rev_app_append. Qed.

Lemma rev_append a b : String.rev (a +:+ b) = String.rev b +:+ String.rev a.
Proof.
  induction a as [|c a IH].
  - change ("" +:+ b) with b. change (String.rev "") with "". by rewrite append_nil_r.
  - rewrite append_cons, !rev_cons, IH. by rewrite append_assoc.
Qed.

Lemma rev_rev s : String.rev (String.rev s) = s.
Proof.
  induction s as [|c s IH]; [done|]. rewrite rev_cons, rev_append, IH. reflexivity.
Qed.

Lemma rev_length s : String.length (String.rev s) = String.length s.
Proof.
  induction s as [|c s IH]; [done|]. rewrite rev_cons, append_length, IH.
  cbn [String.length]. lia.
Qed.

Lemma strip_spec p s r : JS.strip p s = Some r ↔ s = p +:+ r.
Proof.
  revert s. induction p as [|a p IH]; intros s.
  - cbn [JS.strip]. change ("" +:+ r) with r. split; congruence.
  - destruct s as [|b s]; cbn [JS.strip]; rewrite append_cons; [split; discriminate|].
    destruct (Ascii.eqb_spec a b) as [->|Hab].
    + rewrite IH. split; [by intros ->|by intros [=]].
    + split; [discriminate|]. intros [=]. congruence.
Qed.

Lemma strip_any_some ws s r :
  JS.strip_any ws s = Some r → ∃ w, w ∈ ws ∧ s = w +:+ r.
Proof.
  induction ws as [|p ws IH]; [done|]. cbn.
  destruct (JS.strip p s) as [r'|] eqn:Hp.
  - intros [= ->]. exists p. split; [set_solver|]. by apply strip_spec.
  - intros (w & Hw & ->)%IH. exists w. split; [set_solver|done].
Qed.

Lemma strip_any_none ws s :
  JS.strip_any ws s = None → ∀ w r, w ∈ ws → s ≠ w +:+ r.
Proof.
  induction ws as [|p ws IH]; cbn; [by intros _ w r ?%elem_of_nil|].
  destruct (JS.strip p s) as [r'|] eqn:Hp; [done|].
  intros Hnone w r [->|Hw]%elem_of_cons Heq.
  - apply strip_spec in Heq. congruence.
  - by apply (IH Hnone w r).
Qed.

Lemma trim_front_spec ws fuel s :
  Forall (λ w, w ≠ "") ws →
  (String.length s ≤ fuel)%nat →
  JS.strip_any ws (JS.trim_front ws fuel s) = None ∧
  ∃ a, s = a +:+ JS.trim_front ws fuel s.
Proof.
  intros Hws. revert s. induction fuel as [|fuel IH]; intros s Hlen.
  - destruct s; [|cbn in Hlen; lia]. cbn. split; [|by exists ""].
    clear -Hws. induction ws as [|p ws IH]; [done|].
    apply Forall_cons in Hws as [Hp Hws]. cbn. destruct p; [done|]. cbn. by apply IH.
  - cbn [JS.trim_front]. destruct (JS.strip_any ws s) as [r|] eqn:Hs.
    + apply strip_any_some in Hs as (w & Hw & ->).
      assert (w ≠ "") by (rewrite Forall_forall in Hws; by apply Hws).
      rewrite append_length in Hlen.
      destruct (IH r) as [Hnone [a Ha]].
      { destruct w; [done|]. cbn [String.length] in Hlen. lia. }
      split; [done|]. exists (w +:+ a). by rewrite append_assoc, <- Ha.
    + split; [done|]. by exists "".
Qed.

Lemma trim_front_fixed ws fuel s :
  JS.strip_any ws s = None → JS.trim_front ws fuel s = s.
Proof. intros Hs. destruct fuel; [done|]. cbn. by rewrite Hs. Qed.

Lemma whitespace_nonempty :
  Forall (λ w, w ≠ "") JS.whitespace ∧ Forall (λ w, w ≠ "") (map String.rev JS.whitespace).
Proof. split; repeat constructor; done. Qed.

(** X21.  [trim] cuts white space off both ends and nothing else: the
    result is a piece of the string it was given, it neither begins
    nor ends with a white space character, and trimming it again
    changes nothing.  So a model name set by [/model] never begins or
    ends with white space. *)
Theorem trim_trims (s : string) :
  (∃ a b, s = a +:+ JS.trim s +:+ b) ∧
  (∀ w r, w ∈ JS.whitespace → JS.trim s ≠ w +:+ r) ∧
  (∀ w r, w ∈ JS.whitespace → JS.trim s ≠ r +:+ w) ∧
  JS.trim (JS.trim s) = JS.trim s.
Proof.
  destruct whitespace_nonempty as [Hws Hrws].
  unfold JS.trim.
  destruct (trim_front_spec JS.whitespace (String.length s) s Hws) as [Hstart [a Ha]]; [done|].
  fold (JS.trimStart s) in Hstart, Ha. set (t := JS.trimStart s) in *.
  destruct (trim_front_spec (map String.rev JS.whitespace) (String.length t) (String.rev t) Hrws)
    as [Hend [b Hb]]; [by rewrite rev_length|].
  set (t' := JS.trim_front (map String.rev JS.whitespace) (String.length t) (String.rev t)) in *.
  assert (Ht : t = JS.trimEnd t +:+ String.rev b).
  { unfold JS.trimEnd. fold t'. by rewrite <- rev_append, <- Hb, rev_rev. }
  assert (Hfront : ∀ w r, w ∈ JS.whitespace → JS.trimEnd t ≠ w +:+ r).
  { intros w r Hw Heq. apply (strip_any_none _ _ Hstart w (r +:+ String.rev b) Hw).
    rewrite Ht at 1. by rewrite Heq, append_assoc. }
  assert (Hback : ∀ w r, w ∈ JS.whitespace → JS.trimEnd t ≠ r +:+ w).
  { intros w r Hw Heq. apply (strip_any_none _ _ Hend (String.rev w) (String.rev r)).
    - apply list_elem_of_fmap. by exists w.
    - unfold JS.trimEnd in Heq. fold t' in Heq.
      apply (f_equal String.rev) in Heq. by rewrite rev_rev, rev_append in Heq. }
  split; [|split; [done|split; [done|]]].
  - exists a, (String.rev b). by rewrite <- Ht.
  - assert (Hs1 : JS.trimStart (JS.trimEnd t) = JS.trimEnd t).
    { unfold JS.trimStart. apply trim_front_fixed.
      destruct (JS.strip_any JS.whitespace (JS.trimEnd t)) as [r|] eqn:Hr; [|done].
      apply strip_any_some in Hr as (w & Hw & Hr). by destruct (Hfront w r Hw). }
    rewrite Hs1. unfold JS.trimEnd at 1. rewrite trim_front_fixed.
    + apply rev_rev.
    + unfold JS.trimEnd. fold t'. by rewrite rev_rev.
Qed.

(** ** Further properties: flows and edges of the handlers *)

(** X22.  From request to approval: a user without a record presses
    Request Access, and the admin presses the Approve button that the
    bot sent for this request.  The user is then approved, under the
    name and with the request date recorded at the request. *)
Theorem request_then_approve (data : string) (from admin : sender) (now now' : Date)
    (st : store) :
  JS.startsWith "request_" data = true →
  is_admin admin = true →
  users st !! pretty (from_id from) = None →
  JS.truthy (toISOString now) = true →
  ∃ text approve_data deny_data r,
    snd (callback_query (Some data) from now st) =
      [AnswerCbQuery (Some "Access request sent to admin.");
       Reply "✅ Request sent. You'll be notified when approved.";
       SendMessage (JS.IdStr ADMIN_ID) text
         [("✅ Approve", approve_data); ("🚫 Deny", deny_data)]] ∧
    users (fst (callback_query (Some data) from now st)) !! pretty (from_id from) = Some r ∧
    status r = pending ∧
    users (fst (callback_query (Some approve_data) admin now'
                  (fst (callback_query (Some data) from now st))))
      !! pretty (from_id from) =
    Some {| status := approved; username := username r;
            requestedAt := Some (toISOString now) |} ∧
    users (fst (callback_query (Some deny_data) admin now'
                  (fst (callback_query (Some data) from now st))))
      !! pretty (from_id from) =
    Some {| status := denied; username := username r;
            requestedAt := Some (toISOString now) |}.
Proof.
  intros Hreq Hadm Hnone Hnow.
  assert (Hst1 : ∃ r st1 text,
    callback_query (Some data) from now st =
      (st1, [AnswerCbQuery (Some "Access request sent to admin.");
             Reply "✅ Request sent. You'll be notified when approved.";
             SendMessage (JS.IdStr ADMIN_ID) text
               [("✅ Approve", "approve_" +:+ pretty (from_id from));
                ("🚫 Deny", "deny_" +:+ pretty (from_id from))]]) ∧
    users st1 !! pretty (from_id from) = Some r ∧ status r = pending ∧
    requestedAt r = Some (toISOString now)).
  { unfold callback_query. rewrite Hreq, (startsWith_truthy _ _ _ Hreq). cbn [andb].
    unfold ensureUserPending. cbn [JS.String_]. rewrite Hnone. cbn [snd].
    do 3 eexists. split; [reflexivity|]. cbn [users writeUsers].
    rewrite lookup_insert_eq. done. }
  destruct Hst1 as (r & st1 & text & -> & Hr & Hp & Hq). cbn [fst snd].
  exists text, ("approve_" +:+ pretty (from_id from)), ("deny_" +:+ pretty (from_id from)), r.
  split; [done|]. split; [done|]. split; [done|].
  rewrite (press_approve _ admin now' st1 Hadm), (press_deny _ admin now' st1 Hadm).
  cbn [fst]. unfold setUserStatus. cbn [users writeUsers JS.String_].
  rewrite !lookup_insert_eq, Hr. cbn [mbind option_bind]. rewrite Hq.
  cbn [JS.truthy_opt]. by rewrite Hnow.
Qed.

Lemma generate_outputs c clock clock' env st :
  (∃ m, generate c clock clock' env st = (st, [Reply m])) ∨
  ∃ s, ready c s st ∧
       generate c clock clock' env st =
       (after_batch c s clock' st,
        [Reply (msg_generating (plan_total s))] ++
        concat (imap (item c s (plan_total s) env) (jobs (plan_refs s))) ++
        [Reply (msg_done (length (produced env (plan_total s))))]).
Proof.
  destruct (getUserStatus (JS.IdNum c) st) as [[]|] eqn:Hst;
    try (left; eexists; unfold generate; by rewrite Hst).
  destruct (sessions st !! c) as [s|] eqn:Hs;
    [|left; eexists; unfold generate; by rewrite Hst, Hs].
  destruct (JS.truthy_opt (modelName s)) eqn:Hm;
    [|left; eexists; unfold generate; by rewrite Hst, Hs, Hm].
  destruct (baseImages s) as [|b bs] eqn:Hb;
    [left; eexists; unfold generate; by rewrite Hst, Hs, Hm, Hb|].
  destruct (refImages s) as [|r rs] eqn:Hr;
    [left; eexists; unfold generate; by rewrite Hst, Hs, Hm, Hb, Hr|].
  assert (Hready : ready c s st).
  { unfold ready. rewrite Hb, Hr. done. }
  rewrite (generate_ready _ _ clock clock' env _ Hready).
  destruct (_ >? _); [left; by eexists|]. right. by exists s.
Qed.

Lemma plan_total_bounds s : (plan_total s ≤ 6)%nat.
Proof.
  unfold plan_total, plan_refs, variationsPerRef. rewrite length_take. lia.
Qed.

(** X23.  One [/generate] never calls the backend more than 6 times,
    never sends more than 6 photos, and never adds more than 6 to a
    count of the ledger. *)
Theorem batch_is_bounded (c : Z) (clock clock' : Date) (env : backend) (st : store)
    (d u : string) :
  (length (refs_called (snd (generate c clock clock' env st))) ≤ 6)%nat ∧
  (photos_sent (snd (generate c clock clock' env st)) ≤ 6)%nat ∧
  count_at d u (fst (generate c clock clock' env st)) ≤ count_at d u st + 6.
Proof.
  destruct (generate_outputs c clock clock' env st) as [[m ->]|(s & Hr & ->)].
  { cbn [fst snd]. repeat split; cbn; lia. }
  cbn [fst snd]. pose proof (plan_total_bounds s) as Hb.
  split; [|split].
  - unfold refs_called. rewrite !omap_app. cbn [omap list_omap app]. rewrite app_nil_r.
    fold (refs_called (concat (imap (item c s (plan_total s) env) (jobs (plan_refs s))))).
    rewrite refs_of_items. fold (jobs (plan_refs s)). rewrite jobs_length.
    fold (plan_total s). done.
  - unfold photos_sent. rewrite !omap_app. cbn [omap list_omap app]. rewrite app_nil_r.
    fold (photos_sent (concat (imap (item c s (plan_total s) env) (jobs (plan_refs s))))).
    etrans; [|exact Hb].
    etrans; [apply Nat.eq_le_incl;
             exact (photos_of_items c s (plan_total s) env (jobs (plan_refs s)) 0%nat)|].
    etrans; [apply omap_length_le|]. rewrite length_seq, jobs_length. done.
  - unfold after_batch.
    assert (Hs : ∀ x, count_at d u (set_sessions (delete c (sessions x)) x) = count_at d u x)
      by done.
    rewrite Hs, count_at_addUsage. case_decide; lia.
Qed.

(** X24.  [/fetch_instagram] from an approved chat: without a user name
    it only shows its usage line; when the fetcher throws or returns
    nothing the stores stay as they were and the user is told so;
    when it returns images they are appended, in order, after the
    reference images already in the session, the model name and the
    base images staying as they were. *)
Theorem fetch_instagram_outcomes (c : Z) (text : string) (st : store) :
  getUserStatus (JS.IdNum c) st = Some approved →
  let s := default empty_session (sessions st !! c) in
  (JS.truthy_opt (JS.slice1 (JS.split " " text) !! 0%nat) = false →
   ∀ fetched, fetch_instagram c text fetched st =
              (st, [Reply "Usage: /fetch_instagram <username>"])) ∧
  (JS.truthy_opt (JS.slice1 (JS.split " " text) !! 0%nat) = true →
   (∀ m, fst (fetch_instagram c text (Throws m) st) = st ∧
         last (snd (fetch_instagram c text (Throws m) st)) =
         Some (Reply ("Failed to fetch Instagram images: " +:+ m))) ∧
   (fst (fetch_instagram c text (Returns []) st) = st ∧
    last (snd (fetch_instagram c text (Returns []) st)) = Some (Reply "No images found.")) ∧
   (∀ imgs, imgs ≠ [] →
      sessions (fst (fetch_instagram c text (Returns imgs) st)) !! c =
      Some {| modelName := modelName s; baseImages := baseImages s;
              refImages := refImages s ++ imgs;
              instagramHandles := instagramHandles s |} ∧
      users (fst (fetch_instagram c text (Returns imgs) st)) = users st ∧
      usage (fst (fetch_instagram c text (Returns imgs) st)) = usage st)).
Proof.
  intros Ha s. pose proof (proj2 (not_approved_approved _) Ha) as Hna.
  split.
  - intros Hp fetched. unfold fetch_instagram. by rewrite Hna, Hp.
  - intros Hp. split; [|split].
    + intros m. unfold fetch_instagram. by rewrite Hna, Hp.
    + unfold fetch_instagram. by rewrite Hna, Hp.
    + intros imgs Himgs. unfold fetch_instagram. rewrite Hna, Hp. cbn [negb].
      destruct imgs as [|i imgs]; [done|]. cbn [length Nat.eqb fst].
      cbn [sessions users usage set_sessions]. by rewrite lookup_insert_eq.
Qed.

(** X25.  A message without a photo does nothing at all, not even
    register its sender.  For an approved sender the file asked from
    the file service is the last, largest, size of the photo; when
    that request fails the photo is dropped: no store changes and the
    user gets no reply. *)
Theorem photo_edges (c : Z) (from : sender) (now : Date) (st : store) :
  (∀ file, message c from None file now st = (st, [])) ∧
  (∀ file, message c from (Some []) file now st = (st, [])) ∧
  (∀ sizes x m,
     getUserStatus (JS.IdNum c) st = Some approved →
     message c from (Some (sizes ++ [x])) (Throws m) now st =
     (st, [GetFile x; ConsoleError "photo handler err"])) ∧
  (∀ sizes x p,
     getUserStatus (JS.IdNum c) st = Some approved →
     ∃ reply, snd (message c from (Some (sizes ++ [x])) (Returns p) now st) =
              [GetFile x; Reply reply]).
Proof.
  split; [done|]. split; [done|]. split.
  - intros sizes x m Ha. unfold message.
    rewrite length_app, Nat.add_1_r. cbn [Nat.eqb].
    by rewrite (proj2 (not_approved_approved _) Ha), last_snoc.
  - intros sizes x p Ha. unfold message.
    rewrite length_app, Nat.add_1_r. cbn [Nat.eqb].
    rewrite (proj2 (not_approved_approved _) Ha), last_snoc. cbn [show].
    destruct (is_base _); by eexists.
Qed.

End Bot.


(** ** The handlers on the scenarios *)

Example split_button : JS.split "_" "approve_12_3" = ["approve"; "12"; "3"].
Proof. reflexivity. Qed.

Example trim_spaces : JS.trim "  a b  " = "a b".
Proof. reflexivity. Qed.

Example model_argument_blank : model_argument "/model   " = "".
Proof. reflexivity. Qed.

Example model_argument_words : model_argument "/model  Aria  Lee " = "Aria  Lee".
Proof. reflexivity. Qed.

Example todayStr_jan5 : todayStr jan5 = "2026-01-05".
Proof. reflexivity. Qed.

Example find_url_shapes :
  find_url (image 7) = JS.JStr "https://img/7" ∧
  find_url (JS.JObj [("data", JS.JArr [JS.JObj [("url", JS.JStr "u")]])]) = JS.JStr "u" ∧
  find_url (JS.JObj [("output", JS.JArr [JS.JObj [("url", JS.JStr "v")]])]) = JS.JStr "v" ∧
  find_url (JS.JObj [("data", JS.JObj [("image_url", JS.JStr "")])]) = JS.JNull ∧
  find_url (JS.JObj [("error", JS.JStr "busy")]) = JS.JNull.
Proof. repeat split; reflexivity. Qed.

Lemma composed_ready used : ready 42 aria (composed used).
Proof.
  unfold ready. split; [by vm_compute|]. split; [by vm_compute|].
  split; [reflexivity|]. split; discriminate.
Qed.

(** Four images asked with nothing used: four calls, four photos
    tagged 1/4 to 4/4, the count becomes 4 and the session is gone. *)
Example scenario_all_succeed :
  let r := generate (Some "key") 27 42 jan5 jan5 all_succeed (composed None) in
  omap (λ o, match o with SendPhoto _ _ c => Some c | _ => None end) (snd r) =
    ["Result 1/4"; "Result 2/4"; "Result 3/4"; "Result 4/4"] ∧
  refs_called (snd r) = ["ref1"; "ref1"; "ref2"; "ref2"] ∧
  getUsageCount (JS.IdNum 42) jan5 (fst r) = 4 ∧
  sessions (fst r) !! 42 = None.
Proof. by vm_compute. Qed.

(** With 25 used, four more are refused and nothing changes. *)
Example scenario_over_limit :
  generate (Some "key") 27 42 jan5 jan5 all_succeed (composed (Some 25)) =
  (composed (Some 25),
   [Reply "⚠️ Daily limit exceeded. You have used 25/27 images today. This request would generate 4."]).
Proof. by vm_compute. Qed.

(** With 23 used, four more reach the limit and are accepted. *)
Example scenario_at_limit :
  getUsageCount (JS.IdNum 42) jan5
    (fst (generate (Some "key") 27 42 jan5 jan5 all_succeed (composed (Some 23)))) = 27.
Proof. by vm_compute. Qed.

(** The second call throws: the batch goes on, three photos are sent,
    the count still grows by 4. *)
Example scenario_second_throws :
  let r := generate (Some "key") 27 42 jan5 jan5 second_throws (composed (Some 3)) in
  refs_called (snd r) = ["ref1"; "ref1"; "ref2"; "ref2"] ∧
  photos_sent (snd r) = 3%nat ∧
  last (snd r) = Some (Reply "✅ Done — 3 images generated. Today's usage updated.") ∧
  getUsageCount (JS.IdNum 42) jan5 (fst r) = 7 ∧
  sessions (fst r) !! 42 = None.
Proof. by vm_compute. Qed.

(** Without a backend key every call throws; the batch is still
    counted in full. *)
Example scenario_no_key :
  let r := generate None 27 42 jan5 jan5 all_succeed (composed None) in
  photos_sent (snd r) = 0%nat ∧ length (refs_called (snd r)) = 4%nat ∧
  getUsageCount (JS.IdNum 42) jan5 (fst r) = 4.
Proof. by vm_compute. Qed.

(** The run [busy_days]: 2 images counted on 2026-01-05 and 6 on
    2026-01-06. *)
Example busy_days_ledger :
  let st := run "TOKEN" (Some "key") "1" 27 busy_days empty_store in
  getUsageCount (JS.IdNum 42) jan5 st = 2 ∧ getUsageCount (JS.IdNum 42) jan6 st = 6 ∧
  getUserStatus (JS.IdNum 42) st = Some approved ∧ sessions st !! 42 = None.
Proof. by vm_compute. Qed.

(** ** The properties at the scenarios *)

Lemma ensureUserPending_once_at_alice :
  users empty_store !! JS.String_ (JS.IdNum 42) = None ∧
  ∃ st1,
    ensureUserPending (JS.IdNum 42) "alice" jan5 empty_store = (true, st1) ∧
    getUserStatus (JS.IdNum 42) st1 = Some pending ∧
    ensureUserPending (JS.IdNum 42) "alice" jan6 st1 = (false, st1).
Proof.
  split; [reflexivity|].
  destruct (ensureUserPending_once 42 "alice" jan5 empty_store eq_refl)
    as (st1 & H1 & _ & _ & _ & _ & H2 & H3 & _).
  exists st1. split; [exact H1|]. split; [exact H2|]. exact (H3 "alice" jan6).
Defined.

Lemma generation_plan_at_aria :
  refImages aria ≠ [] ∧
  plan_refs aria = take 2 (refImages aria) ∧ plan_total aria = 4%nat.
Proof.
  assert (Hne : refImages aria ≠ []) by discriminate.
  split; [exact Hne|].
  pose proof (generation_plan (Some "key") 27 42 aria jan5 jan5 all_succeed
                (composed None) Hne) as H.
  split; [exact (proj1 H)|]. exact (proj1 (proj2 (proj2 (proj2 (proj2 H))))).
Defined.

Lemma quota_check_at_25 :
  ready 42 aria (composed (Some 25)) ∧
  generate (Some "key") 27 42 jan5 jan5 all_succeed (composed (Some 25)) =
  (composed (Some 25),
   [Reply "⚠️ Daily limit exceeded. You have used 25/27 images today. This request would generate 4."]).
Proof.
  split; [apply composed_ready|].
  apply (proj2 (proj1 (quota_check (Some "key") 27 42 aria jan5 jan5 all_succeed
                         (composed (Some 25)) (composed_ready (Some 25))))).
  vm_compute. reflexivity.
Defined.

Lemma photo_classified_at_aria :
  getUserStatus (JS.IdNum 42) (composed None) = Some approved ∧
  ["small"; "large"] ≠ @nil string ∧
  sessions (fst (message "TOKEN" 42 alice (Some ["small"; "large"])
                   (Returns (Some "photos/2.jpg")) jan5 (composed None))) !! 42 =
  Some (push_base (file_url "TOKEN" (Some "photos/2.jpg")) aria).
Proof.
  assert (H1 : getUserStatus (JS.IdNum 42) (composed None) = Some approved)
    by (vm_compute; reflexivity).
  assert (H2 : ["small"; "large"] ≠ @nil string) by discriminate.
  split; [exact H1|]. split; [exact H2|].
  apply (proj1 (proj2 (photo_classified "TOKEN" 42 alice ["small"; "large"]
                         (Some "photos/2.jpg") jan5 (composed None) H1 H2))).
  vm_compute. reflexivity.
Defined.

Lemma non_admin_press_ignored_at_mallory :
  (JS.startsWith "approve_" "approve_42" = true ∨
   JS.startsWith "deny_" "approve_42" = true) ∧
  JS.String_ (JS.IdNum (from_id mallory)) ≠ JS.String_ (JS.IdStr "1") ∧
  callback_query "1" (Some "approve_42") mallory jan5 (composed None) =
  (composed None, [AnswerCbQuery None]).
Proof.
  assert (H1 : JS.startsWith "approve_" "approve_42" = true ∨
               JS.startsWith "deny_" "approve_42" = true) by (left; reflexivity).
  assert (H2 : JS.String_ (JS.IdNum (from_id mallory)) ≠ JS.String_ (JS.IdStr "1"))
    by (vm_compute; discriminate).
  split; [exact H1|]. split; [exact H2|].
  exact (proj1 (non_admin_press_ignored "1" "approve_42" mallory jan5 (composed None) H1 H2)).
Defined.


Lemma within_limit_at_3 : within_limit 27 42 aria jan5 (composed (Some 3)).
Proof. unfold within_limit. vm_compute. discriminate. Qed.


Lemma calls_in_order_results_counted_at_second_throws :
  ready 42 aria (composed (Some 3)) ∧
  within_limit 27 42 aria jan5 (composed (Some 3)) ∧
  ∀ k u tag,
    delivered (Some "key") second_throws k = Some u →
    response (Some "key") 42 (plan_total aria) second_throws tag k =
    [SendPhoto (JS.IdNum 42) u ("Result " +:+ pretty tag +:+ "/" +:+ pretty (plan_total aria))].
Proof.
  split; [apply composed_ready|]. split; [apply within_limit_at_3|].
  pose proof (calls_in_order_results_counted (Some "key") 27 42 aria jan5 jan5
                second_throws (composed (Some 3)) (composed_ready (Some 3))
                within_limit_at_3) as H.
  cbv zeta in H. destruct H as (b & name & _ & _ & _ & H & _).
  exact H.
Defined.

(** C8 as stated fails.  Chat 42 asks for 4 images and the second call
    throws.  The image of the third call is sent with the caption
    [Result 2/4] and the image of the fourth with [Result 3/4]: the
    outputs are not those of a batch that tags each image with the
    position of its call. *)
Lemma position_tag_refuted :
  ready 42 aria (composed None) ∧
  within_limit 27 42 aria jan5 (composed None) ∧
  omap (λ o, match o with
             | WavespeedEdit _ _ _ seed => Some (inl seed)
             | SendPhoto _ _ c => Some (inr c)
             | _ => None
             end)
    (snd (generate (Some "key") 27 42 jan5 jan5 second_throws (composed None))) =
    [inl 1000; inr "Result 1/4"; inl 1001; inl 1002; inr "Result 2/4";
     inl 1003; inr "Result 3/4"] ∧
  snd (generate (Some "key") 27 42 jan5 jan5 second_throws (composed None)) ≠
    [Reply (msg_generating 4)] ++
    concat (imap (item_by_position (Some "key") 42 aria 4 second_throws)
              (jobs (plan_refs aria))) ++
    [Reply (msg_done 3)].
Proof.
  split; [apply composed_ready|].
  split; [unfold within_limit; vm_compute; discriminate|].
  split; [by vm_compute|].
  vm_compute. intros H. discriminate H.
Qed.

(** ** The fetchers on the scenarios *)

(** With a limit of 2 the loop stops at the second usable image and
    never reads the [null] that follows; with a larger limit it
    reaches the [null] and throws; with a limit of 0 it still returns
    one image. *)
Example apify_on_dataset :
  fetchInstagramImagesApify (Some "t") 2
    (Returns (JS.JObj [("defaultDatasetId", JS.JStr "d")])) (Returns (JS.JArr dataset)) =
    Returns [JS.JStr "a"; JS.JStr "b"] ∧
  fetchInstagramImagesApify (Some "t") 6
    (Returns (JS.JObj [("defaultDatasetId", JS.JStr "d")])) (Returns (JS.JArr dataset)) =
    Throws type_error ∧
  fetchInstagramImagesApify (Some "t") 0
    (Returns (JS.JObj [("data", JS.JObj [("defaultDataset", JS.JObj [("id", JS.JStr "d")])])]))
    (Returns (JS.JArr dataset)) = Returns [JS.JStr "a"] ∧
  fetchInstagramImagesApify (Some "t") 6 (Returns (JS.JObj [])) (Returns (JS.JArr dataset)) =
    Throws "Apify run did not return dataset id; check actor".
Proof. repeat split; reflexivity. Qed.

(** The direct fetcher looks at the first [limit] edges only and drops
    those without an image. *)
Example direct_on_profile :
  fetchInstagramDirect 6 (Returns (true, Returns profile)) =
    Returns [JS.JStr "p1"; JS.JStr "p2"] ∧
  fetchInstagramDirect 1 (Returns (true, Returns profile)) = Returns [JS.JStr "p1"] ∧
  fetchInstagramDirect 6 (Returns (true, Returns (JS.JObj []))) = Throws "No media found" ∧
  fetchInstagramDirect 6 (Returns (false, Returns profile)) =
    Throws "Instagram public endpoint blocked".
Proof. repeat split; reflexivity. Qed.

(** ** The further properties at the scenarios *)

Lemma todayStr_injective_at_january :
  (0 ≤ getUTCMonth jan5 ≤ 11 ∧ 1 ≤ getUTCDate jan5 ≤ 31 ∧
   0 ≤ getUTCMonth jan6 ≤ 11 ∧ 1 ≤ getUTCDate jan6 ≤ 31) ∧
  String.length (todayStr jan5) = (String.length (pretty (getUTCFullYear jan5)) + 6)%nat.
Proof.
  assert (H1 : 0 ≤ getUTCMonth jan5 ≤ 11) by (cbn; lia).
  assert (H2 : 1 ≤ getUTCDate jan5 ≤ 31) by (cbn; lia).
  assert (H3 : 0 ≤ getUTCMonth jan6 ≤ 11) by (cbn; lia).
  assert (H4 : 1 ≤ getUTCDate jan6 ≤ 31) by (cbn; lia).
  split; [done|]. exact (proj1 (todayStr_injective jan5 jan6 H1 H2 H3 H4)).
Defined.

Lemma request_registers_presser_at_alice :
  JS.startsWith "request_" "request_999" = true ∧
  usage (fst (callback_query "1" (Some "request_999") alice jan5 empty_store)) =
    usage empty_store ∧
  ∀ k', k' ≠ pretty (from_id alice) →
        users (fst (callback_query "1" (Some "request_999") alice jan5 empty_store)) !! k' =
        users empty_store !! k'.
Proof.
  assert (H : JS.startsWith "request_" "request_999" = true) by reflexivity.
  split; [exact H|].
  pose proof (request_registers_presser "1" "request_999" alice jan5 empty_store H) as Hx.
  cbv zeta in Hx. destruct Hx as (_ & _ & H3 & H4 & _). split; [exact H4|exact H3].
Defined.

Lemma admin_is_boss : is_admin "1" boss = true.
Proof. vm_compute. reflexivity. Qed.

Lemma admin_button_decides_at_42 :
  is_admin "1" boss = true ∧
  getUserStatus (JS.IdNum 42)
    (fst (callback_query "1" (Some ("approve_" +:+ pretty 42)) boss jan5 empty_store)) =
  Some approved.
Proof.
  split; [exact admin_is_boss|].
  exact (proj1 (proj2 (proj2 (admin_button_decides "1" 42 boss jan5 empty_store admin_is_boss)))).
Defined.

Lemma status_needs_admin_at_photo :
  admin_decision "1" stranger_photo = false ∧
  users (fst (handle "TOKEN" (Some "key") "1" 27 stranger_photo empty_store)) !! "42" =
    Some pending_alice ∧
  (users empty_store !! "42" = Some pending_alice ∨
   (users empty_store !! "42" = None ∧ status pending_alice = pending)).
Proof.
  assert (H1 : admin_decision "1" stranger_photo = false) by reflexivity.
  assert (H2 : users (fst (handle "TOKEN" (Some "key") "1" 27 stranger_photo empty_store))
                 !! "42" = Some pending_alice)
    by (vm_compute; reflexivity).
  split; [exact H1|]. split; [exact H2|].
  exact (status_needs_admin "TOKEN" (Some "key") "1" 27 stranger_photo empty_store "42"
           pending_alice H1 H2).
Defined.

Lemma sessions_are_separate_at_model :
  sessions (fst (handle "TOKEN" (Some "key") "1" 27 rename_model (composed None))) !! 42 ≠
    sessions (composed None) !! 42 ∧
  chat_of rename_model = Some 42 ∧
  getUserStatus (JS.IdNum 42) (composed None) = Some approved.
Proof.
  assert (H : sessions (fst (handle "TOKEN" (Some "key") "1" 27 rename_model (composed None)))
                !! 42 ≠ sessions (composed None) !! 42)
    by (vm_compute; discriminate).
  split; [exact H|].
  exact (sessions_are_separate "TOKEN" (Some "key") "1" 27 rename_model (composed None) 42 H).
Defined.

Lemma records_are_kept_at_busy_days :
  is_Some (users (composed None) !! "42") ∧
  is_Some (users (run "TOKEN" (Some "key") "1" 27 busy_days (composed None)) !! "42").
Proof.
  assert (H : is_Some (users (composed None) !! "42")) by (vm_compute; eauto).
  split; [exact H|].
  exact (records_are_kept "TOKEN" (Some "key") "1" 27 busy_days (composed None) "42" H).
Defined.

Lemma nothing_without_approval_at_quiet_days :
  forallb (λ e, negb (admin_decision "1" e)) quiet_days = true ∧
  usage (run "TOKEN" (Some "key") "1" 27 quiet_days empty_store) = ∅ ∧
  sessions (run "TOKEN" (Some "key") "1" 27 quiet_days empty_store) = ∅.
Proof.
  assert (H : forallb (λ e, negb (admin_decision "1" e)) quiet_days = true)
    by (vm_compute; reflexivity).
  split; [exact H|].
  exact (proj2 (nothing_without_approval "TOKEN" (Some "key") "1" 27 quiet_days H)).
Defined.

Lemma gated_without_approval_at_stranger :
  getUserStatus (JS.IdNum 42) empty_store ≠ Some approved ∧
  ∀ clock clock' env,
    generate (Some "key") 27 42 clock clock' env empty_store =
    (empty_store, [Reply msg_not_approved]).
Proof.
  assert (H : getUserStatus (JS.IdNum 42) empty_store ≠ Some approved)
    by (vm_compute; discriminate).
  split; [exact H|].
  exact (proj1 (proj2 (proj2 (gated_without_approval "TOKEN" (Some "key") 27 42 empty_store H)))).
Defined.

Lemma model_sets_name_at_aria_lee :
  has_char " " "/model" = false ∧
  getUserStatus (JS.IdNum 42) (composed None) = Some approved ∧
  JS.trim "  Aria Lee " ≠ "" ∧
  sessions (fst (model 42 ("/model" +:+ " " +:+ "  Aria Lee ") (composed None))) !! 42 =
  Some {| modelName := Some (JS.trim "  Aria Lee "); baseImages := baseImages aria;
          refImages := refImages aria; instagramHandles := instagramHandles aria |}.
Proof.
  assert (H1 : has_char " " "/model" = false) by reflexivity.
  assert (H2 : getUserStatus (JS.IdNum 42) (composed None) = Some approved)
    by (vm_compute; reflexivity).
  assert (H3 : JS.trim "  Aria Lee " ≠ "") by (vm_compute; discriminate).
  split; [exact H1|]. split; [exact H2|]. split; [exact H3|].
  exact (proj1 (model_sets_name 42 "/model" "  Aria Lee " (composed None) H1 H2 H3)).
Defined.

Lemma batch_uses_up_session_at_aria :
  ready 42 aria (composed (Some 3)) ∧
  within_limit 27 42 aria jan5 (composed (Some 3)) ∧
  generate (Some "key") 27 42 jan6 jan6 all_succeed
    (fst (generate (Some "key") 27 42 jan5 jan5 second_throws (composed (Some 3)))) =
  (fst (generate (Some "key") 27 42 jan5 jan5 second_throws (composed (Some 3))),
   [Reply msg_no_model]).
Proof.
  split; [apply composed_ready|]. split; [apply within_limit_at_3|].
  exact (batch_uses_up_session (Some "key") 27 42 aria jan5 jan5 second_throws
           (composed (Some 3)) (composed_ready (Some 3)) within_limit_at_3
           jan6 jan6 all_succeed).
Defined.


Lemma denial_keeps_session_at_aria :
  is_admin "1" boss = true ∧
  ready 42 aria (composed None) ∧
  sessions (fst (callback_query "1" (Some ("deny_" +:+ pretty 42)) boss jan5 (composed None))) =
  sessions (composed None).
Proof.
  split; [exact admin_is_boss|]. split; [apply composed_ready|].
  exact (proj1 (denial_keeps_session (Some "key") "1" 27 42 aria boss jan5 jan6
                  (composed None) admin_is_boss (composed_ready None))).
Defined.

Lemma request_then_approve_at_alice :
  JS.startsWith "request_" "request_42" = true ∧
  is_admin "1" boss = true ∧
  users empty_store !! pretty (from_id alice) = None ∧
  JS.truthy (toISOString jan5) = true ∧
  ∃ text approve_data deny_data r,
    snd (callback_query "1" (Some "request_42") alice jan5 empty_store) =
      [AnswerCbQuery (Some "Access request sent to admin.");
       Reply "✅ Request sent. You'll be notified when approved.";
       SendMessage (JS.IdStr "1") text
         [("✅ Approve", approve_data); ("🚫 Deny", deny_data)]] ∧
    users (fst (callback_query "1" (Some "request_42") alice jan5 empty_store))
      !! pretty (from_id alice) = Some r ∧
    status r = pending ∧
    users (fst (callback_query "1" (Some approve_data) boss jan6
                  (fst (callback_query "1" (Some "request_42") alice jan5 empty_store))))
      !! pretty (from_id alice) =
    Some {| status := approved; username := username r;
            requestedAt := Some (toISOString jan5) |} ∧
    users (fst (callback_query "1" (Some deny_data) boss jan6
                  (fst (callback_query "1" (Some "request_42") alice jan5 empty_store))))
      !! pretty (from_id alice) =
    Some {| status := denied; username := username r;
            requestedAt := Some (toISOString jan5) |}.
Proof.
  assert (H1 : JS.startsWith "request_" "request_42" = true) by reflexivity.
  assert (H3 : users empty_store !! pretty (from_id alice) = None) by reflexivity.
  assert (H4 : JS.truthy (toISOString jan5) = true) by reflexivity.
  split; [exact H1|]. split; [exact admin_is_boss|]. split; [exact H3|]. split; [exact H4|].
  exact (request_then_approve "1" "request_42" alice boss jan5 jan6 empty_store
           H1 admin_is_boss H3 H4).
Defined.

Lemma fetch_instagram_outcomes_at_aria :
  getUserStatus (JS.IdNum 42) (composed None) = Some approved ∧
  fst (fetch_instagram 42 "/fetch_instagram @aria" (Throws "blocked") (composed None)) =
  composed None.
Proof.
  assert (H : getUserStatus (JS.IdNum 42) (composed None) = Some approved)
    by (vm_compute; reflexivity).
  split; [exact H|].
  pose proof (fetch_instagram_outcomes 42 "/fetch_instagram @aria" (composed None) H) as Hx.
  cbv zeta in Hx. destruct Hx as [_ Hx].
  exact (proj1 (proj1 (Hx eq_refl) "blocked")).
Defined.
